(** * The live voice session hook ([src/hooks/useLiveAPI.ts])

    A shallow embedding of the React hook [useLiveAPI]: the PCM16 conversion
    done in the capture callback, the playback scheduling done in the
    transport's message callback, and the session lifecycle operations
    [startSession] and [stopSession].

    Conventions.
    - Every definition that embeds a piece of the hook quotes the source
      lines it comes from.
    - JavaScript numbers that carry audio samples are IEEE-754 binary64
      values ([spec_float] of the standard library, with the library's own
      multiplication).
    - JavaScript numbers that carry times (the playback cursor, the output
      clock, buffer durations) are values of an ordered type with an
      addition, see [TimeOps]; the integers are one instance.
    - An [await] splits a handler in two: what runs before it, and a pending
      task that is resumed by a later event. *)

From Stdlib Require Import ZArith List String Bool Lia.
From Stdlib Require Import Floats.SpecFloat.
Import ListNotations.

Local Open Scope Z_scope.
Set Warnings "-abstract-large-number".

(** ** The capture callback: float samples to PCM16 bytes (lines 42-52) *)

Module Capture.

(** IEEE-754 binary64, the format of a JavaScript number. *)
Definition prec : Z := 53.
Definition emax : Z := 1024.

(** The literal [32768] of line 47, as a binary64 value: 2^52 * 2^-37. *)
Definition c32768 : spec_float :=
  S754_finite false 4503599627370496 (-37).

(** [inputData[i] * 32768] (line 47): the binary64 product. *)
Definition scale (sample : spec_float) : spec_float :=
  SFmul prec emax sample c32768.

(** ECMAScript [truncate] on the real value of a finite number; the
    mantissa is shifted left for a non-negative exponent and right
    (dropping the fraction bits) for a negative one. *)
Definition truncate (x : spec_float) : Z :=
  match x with
  | S754_finite s m e =>
      let a := Z.shiftl (Zpos m) e in if s then - a else a
  | _ => 0
  end.

(** ECMAScript [ToInt16], the conversion an [Int16Array] applies on a
    store: NaN, the infinities and the zeros give 0; any other number is
    truncated, reduced modulo 2^16 and read as a signed 16-bit integer. *)
Definition ToInt16 (x : spec_float) : Z :=
  let int16bit := (truncate x) mod 65536 in
  if 32768 <=? int16bit then int16bit - 65536 else int16bit.

(** Lines 44-48: the loop that fills [int16]. *)
Definition to_int16_array (inputData : list spec_float) : list Z :=
  map (fun sample => ToInt16 (scale sample)) inputData.

(** The two bytes of one [Int16Array] element in the underlying buffer,
    low byte first (typed arrays use the platform's byte order, which is
    little-endian on every platform the hook runs on). *)
Definition int16_bytes (v : Z) : list Z :=
  [v mod 256; (v / 256) mod 256].

(** Line 50: [new Uint8Array(int16.buffer)]. *)
Definition uint8_view (int16 : list Z) : list Z :=
  flat_map int16_bytes int16.

(** Lines 43-50, up to the transport text encoding (the imported
    [encode], which is not part of the hook). *)
Definition pcm16 (inputData : list spec_float) : list Z :=
  uint8_view (to_int16_array inputData).

(** The value a little-endian byte pair stands for, as a signed 16-bit
    integer. *)
Definition int16_of_bytes (lo hi : Z) : Z :=
  let u := lo + 256 * hi in
  if 32768 <=? u then u - 65536 else u.

(** Sample values used in the examples: 1.0, 1.5, -1.0, 0.5 and the
    positive zero. *)
Definition f_one : spec_float := S754_finite false 4503599627370496 (-52).
Definition f_one_half : spec_float := S754_finite false 6755399441055744 (-52).
Definition f_minus_one : spec_float := S754_finite true 4503599627370496 (-52).
Definition f_half : spec_float := S754_finite false 4503599627370496 (-53).
Definition f_zero : spec_float := S754_zero false.

(** -(2^-16): scaled by 32768 it is -0.5. *)
Definition f_minus_tiny : spec_float := S754_finite true 4503599627370496 (-68).

End Capture.

(** ** Times *)

(** The operations the hook applies to times: the literal [0], the
    comparison behind [Math.max], and [+]. *)
Class TimeOps (T : Type) : Type := {
  tzero : T;
  tleb : T -> T -> bool;
  tadd : T -> T -> T
}.

(** [Math.max(a, b)] on two numbers neither of which is NaN. *)
Definition tmax {T : Type} `{TimeOps T} (a b : T) : T :=
  if tleb a b then b else a.

(** What the proofs use of the order and of the addition.  JavaScript
    numbers without NaN satisfy these: [<=] is a total preorder on them, and
    the rounded sum [a + d] with [0 <= d] is never below [a]. *)
Class TimeLaws (T : Type) `{TimeOps T} : Prop := {
  tleb_refl : forall a, tleb a a = true;
  tleb_trans : forall a b c, tleb a b = true -> tleb b c = true -> tleb a c = true;
  tleb_total : forall a b, tleb a b = true \/ tleb b a = true;
  tadd_nonneg : forall a d, tleb tzero d = true -> tleb a (tadd a d) = true
}.

(** Integer times (a count of clock ticks), used for concrete runs. *)
#[export] Instance Z_TimeOps : TimeOps Z := {
  tzero := 0;
  tleb := Z.leb;
  tadd := Z.add
}.

(** ** Inbound messages (the fields of [LiveServerMessage] the hook reads) *)

Record Blob := { data : option string }.
Record Part := { inlineData : option Blob }.
Record Content := { parts : option (list Part) }.
Record Transcription := { text : option string }.
Record LiveServerContent := {
  modelTurn : option Content;
  interrupted : option bool;
  outputTranscription : option Transcription;
  inputTranscription : option Transcription
}.
Record LiveServerMessage := { serverContent : option LiveServerContent }.

(** How a piece of code ends: normally with a value, or by throwing; a
    handler that throws carries the state it had reached (an expression that
    throws carries nothing of interest). *)
Inductive Completion (A : Type) : Type :=
| Normal (a : A)
| Throw (a : A).
Arguments Normal {A} a.
Arguments Throw {A} a.

Definition completed {A : Type} (c : Completion A) : A :=
  match c with Normal a => a | Throw a => a end.

Definition is_normal {A : Type} (c : Completion A) : bool :=
  match c with Normal _ => true | Throw _ => false end.

(** Line 63:
    [message.serverContent?.modelTurn?.parts[0]?.inlineData?.data].
    The optional chain stops with [undefined] at a missing [serverContent]
    or [modelTurn]; [parts[0]] on a missing [parts] throws a TypeError; on
    an empty [parts] it is [undefined]. *)
Definition base64Audio (message : LiveServerMessage) : Completion (option string) :=
  match serverContent message with
  | None => Normal None
  | Some sc =>
      match modelTurn sc with
      | None => Normal None
      | Some mt =>
          match parts mt with
          | None => Throw None
          | Some [] => Normal None
          | Some (p :: _) =>
              match inlineData p with
              | None => Normal None
              | Some b => Normal (data b)
              end
          end
      end
  end.

(** Truthiness of an optional string: [undefined] and [""] are falsy. *)
Definition truthy_string (s : option string) : bool :=
  match s with
  | None => false
  | Some EmptyString => false
  | Some _ => true
  end.

(** Line 82: [message.serverContent?.interrupted] as a condition. *)
Definition is_interrupted (message : LiveServerMessage) : bool :=
  match serverContent message with
  | None => false
  | Some sc => match interrupted sc with Some b => b | None => false end
  end.

(** A template literal prints a missing [text] as [undefined]. *)
Definition text_or_undefined (t : Transcription) : string :=
  match text t with Some s => s | None => "undefined"%string end.

(** Lines 88-90: the entry for an output transcription, when present. *)
Definition output_entry (message : LiveServerMessage) : list string :=
  match serverContent message with
  | None => []
  | Some sc =>
      match outputTranscription sc with
      | None => []
      | Some t => [("AI: " ++ text_or_undefined t)%string]
      end
  end.

(** Lines 91-93: the entry for an input transcription, when present. *)
Definition input_entry (message : LiveServerMessage) : list string :=
  match serverContent message with
  | None => []
  | Some sc =>
      match inputTranscription sc with
      | None => []
      | Some t => [("You: " ++ text_or_undefined t)%string]
      end
  end.

(** Messages used in the concrete runs. *)
Definition audio_content (payload : string) (flag : option bool) : LiveServerContent :=
  {| modelTurn := Some {| parts := Some [ {| inlineData := Some {| data := Some payload |} |} ] |};
     interrupted := flag;
     outputTranscription := None;
     inputTranscription := None |}.

Definition chunk_message (payload : string) : LiveServerMessage :=
  {| serverContent := Some (audio_content payload None) |}.

Definition interruption_message : LiveServerMessage :=
  {| serverContent := Some {| modelTurn := None; interrupted := Some true;
                              outputTranscription := None; inputTranscription := None |} |}.

Definition chunk_and_interruption_message (payload : string) : LiveServerMessage :=
  {| serverContent := Some (audio_content payload (Some true)) |}.

Definition output_transcript_message (t : string) : LiveServerMessage :=
  {| serverContent := Some {| modelTurn := None; interrupted := None;
                              outputTranscription := Some {| text := Some t |};
                              inputTranscription := None |} |}.

Definition malformed_turn_message : LiveServerMessage :=
  {| serverContent := Some {| modelTurn := Some {| parts := None |}; interrupted := Some true;
                              outputTranscription := None; inputTranscription := None |} |}.

(** ** The hook's state and its surroundings *)

(** Line 11: the pair stored in [audioContextRef]. *)
Record AudioContexts := { input : nat; output : nat }.

Section Hook.

Context {T : Type} {time_ops : TimeOps T}.

(** What the hook reads of a decoded [AudioBuffer] (line 78). *)
Record AudioBuffer := { duration : T }.

(** Calls into the platform and the transport.  The first ten are the calls
    the hook makes that acquire, schedule or stop something; the last three
    are the release operations the platform offers for what the hook
    acquires ([AudioContext.close], [MediaStreamTrack.stop],
    [Session.close]). *)
Inductive Effect :=
| NewGoogleGenAI
| NewAudioContext (ctx : nat) (sampleRate : Z)
| GetUserMedia
| LiveConnect (session : nat)
| CreateMediaStreamSource (ctx stream : nat)
| CreateScriptProcessor (ctx : nat) (bufferSize : Z)
| CreateBufferSource (ctx source : nat)
| SourceStart (source : nat) (when : T)
| SourceStop (source : nat)
| ConsoleError
| AudioContextClose (ctx : nat)
| MediaStreamTrackStop (stream : nat)
| SessionClose (session : nat).

(** A handler suspended at an [await], with the variables it closed over. *)
Inductive Task :=
| AwaitGetUserMedia (inputCtx outputCtx : nat)                    (* line 32 *)
| AwaitSessionPromise (session : nat)                             (* line 110 *)
| AwaitDecodeAudioData (message : LiveServerMessage) (out : nat). (* line 68 *)

(** Lines 7-14 ([useState] and [useRef] cells), followed by the
    surroundings: the next fresh object identity, the log of platform calls,
    the suspended handlers, and for each transport session the variables
    its [onopen] callback closed over (input context, microphone stream). *)
Record State := {
  isActive : bool;
  transcripts : list string;
  error : option string;
  audioContextRef : option AudioContexts;
  nextStartTimeRef : T;
  sourcesRef : list nat;
  sessionRef : option nat;
  nextId : nat;
  log : list Effect;
  pending : list Task;
  callbacks : list (nat * (nat * nat))
}.

(** Lines 7-14: the cells' initial values. *)
Definition initial : State :=
  {| isActive := false; transcripts := []; error := None;
     audioContextRef := None; nextStartTimeRef := tzero; sourcesRef := [];
     sessionRef := None; nextId := 0%nat; log := []; pending := [];
     callbacks := [] |}.

Definition setIsActive (b : bool) (st : State) : State :=
  {| isActive := b; transcripts := transcripts st; error := error st;
     audioContextRef := audioContextRef st; nextStartTimeRef := nextStartTimeRef st;
     sourcesRef := sourcesRef st; sessionRef := sessionRef st; nextId := nextId st;
     log := log st; pending := pending st; callbacks := callbacks st |}.

(** [setTranscripts(prev => [...prev, entry])]. *)
Definition appendTranscripts (entries : list string) (st : State) : State :=
  {| isActive := isActive st; transcripts := transcripts st ++ entries; error := error st;
     audioContextRef := audioContextRef st; nextStartTimeRef := nextStartTimeRef st;
     sourcesRef := sourcesRef st; sessionRef := sessionRef st; nextId := nextId st;
     log := log st; pending := pending st; callbacks := callbacks st |}.

Definition setError (e : option string) (st : State) : State :=
  {| isActive := isActive st; transcripts := transcripts st; error := e;
     audioContextRef := audioContextRef st; nextStartTimeRef := nextStartTimeRef st;
     sourcesRef := sourcesRef st; sessionRef := sessionRef st; nextId := nextId st;
     log := log st; pending := pending st; callbacks := callbacks st |}.

Definition setAudioContextRef (c : option AudioContexts) (st : State) : State :=
  {| isActive := isActive st; transcripts := transcripts st; error := error st;
     audioContextRef := c; nextStartTimeRef := nextStartTimeRef st;
     sourcesRef := sourcesRef st; sessionRef := sessionRef st; nextId := nextId st;
     log := log st; pending := pending st; callbacks := callbacks st |}.

Definition setNextStartTime (t : T) (st : State) : State :=
  {| isActive := isActive st; transcripts := transcripts st; error := error st;
     audioContextRef := audioContextRef st; nextStartTimeRef := t;
     sourcesRef := sourcesRef st; sessionRef := sessionRef st; nextId := nextId st;
     log := log st; pending := pending st; callbacks := callbacks st |}.

Definition setSources (s : list nat) (st : State) : State :=
  {| isActive := isActive st; transcripts := transcripts st; error := error st;
     audioContextRef := audioContextRef st; nextStartTimeRef := nextStartTimeRef st;
     sourcesRef := s; sessionRef := sessionRef st; nextId := nextId st;
     log := log st; pending := pending st; callbacks := callbacks st |}.

Definition setSessionRef (s : option nat) (st : State) : State :=
  {| isActive := isActive st; transcripts := transcripts st; error := error st;
     audioContextRef := audioContextRef st; nextStartTimeRef := nextStartTimeRef st;
     sourcesRef := sourcesRef st; sessionRef := s; nextId := nextId st;
     log := log st; pending := pending st; callbacks := callbacks st |}.

(** Take [n] fresh object identities. *)
Definition bumpId (n : nat) (st : State) : State :=
  {| isActive := isActive st; transcripts := transcripts st; error := error st;
     audioContextRef := audioContextRef st; nextStartTimeRef := nextStartTimeRef st;
     sourcesRef := sourcesRef st; sessionRef := sessionRef st; nextId := (nextId st + n)%nat;
     log := log st; pending := pending st; callbacks := callbacks st |}.

(** Record platform calls, oldest first. *)
Definition emit (es : list Effect) (st : State) : State :=
  {| isActive := isActive st; transcripts := transcripts st; error := error st;
     audioContextRef := audioContextRef st; nextStartTimeRef := nextStartTimeRef st;
     sourcesRef := sourcesRef st; sessionRef := sessionRef st; nextId := nextId st;
     log := log st ++ es; pending := pending st; callbacks := callbacks st |}.

Definition setPending (p : list Task) (st : State) : State :=
  {| isActive := isActive st; transcripts := transcripts st; error := error st;
     audioContextRef := audioContextRef st; nextStartTimeRef := nextStartTimeRef st;
     sourcesRef := sourcesRef st; sessionRef := sessionRef st; nextId := nextId st;
     log := log st; pending := p; callbacks := callbacks st |}.

Definition addCallbacks (session inputCtx stream : nat) (st : State) : State :=
  {| isActive := isActive st; transcripts := transcripts st; error := error st;
     audioContextRef := audioContextRef st; nextStartTimeRef := nextStartTimeRef st;
     sourcesRef := sourcesRef st; sessionRef := sessionRef st; nextId := nextId st;
     log := log st; pending := pending st;
     callbacks := callbacks st ++ [(session, (inputCtx, stream))] |}.

(** Suspend at an [await]. *)
Definition suspend (t : Task) (st : State) : State :=
  setPending (pending st ++ [t]) st.

(** [Set.prototype.add] and [Set.prototype.delete] on a set kept in
    insertion order (the order [forEach] visits). *)
Definition set_add (h : nat) (s : list nat) : list nat :=
  if existsb (Nat.eqb h) s then s else s ++ [h].

Definition set_delete (h : nat) (s : list nat) : list nat :=
  filter (fun x => negb (Nat.eqb x h)) s.

(** ** The handlers *)

(** Lines 16-21.  The body of the [if] on [sessionRef.current] is empty,
    so the only effect is [setIsActive(false)]. *)
Definition stopSession (st : State) : State :=
  setIsActive false st.

(** Lines 24-32, up to the [await] of [getUserMedia]. *)
Definition startSession (st : State) : State :=
  let st := setError None st in                                      (* 25 *)
  let st := emit [NewGoogleGenAI] st in                              (* 26 *)
  let inputCtx := nextId st in
  let outputCtx := S (nextId st) in
  let st := emit [NewAudioContext inputCtx 16000;                    (* 28 *)
                  NewAudioContext outputCtx 24000] (bumpId 2 st) in  (* 29 *)
  let st := setAudioContextRef
              (Some {| input := inputCtx; output := outputCtx |}) st in (* 30 *)
  suspend (AwaitGetUserMedia inputCtx outputCtx) (emit [GetUserMedia] st). (* 32 *)

(** Lines 111-114: the [catch] block. *)
Definition startSession_catch (st : State) : State :=
  setError (Some "Could not initialize Live Session."%string)
           (emit [ConsoleError] st).

(** Lines 32-110, from the settlement of [getUserMedia] to the [await] of
    [sessionPromise]: on a grant the transport session is requested and its
    callbacks are registered; on a denial the [catch] block runs. *)
Definition startSession_afterGetUserMedia
    (inputCtx outputCtx : nat) (granted : bool) (st : State) : State :=
  if granted then
    let stream := nextId st in
    let session := S (nextId st) in
    let st := emit [LiveConnect session] (bumpId 2 st) in             (* 34 *)
    suspend (AwaitSessionPromise session)
            (addCallbacks session inputCtx stream st)                 (* 36-101 *)
  else startSession_catch st.

(** Line 110, after the settlement of [sessionPromise]. *)
Definition startSession_afterConnect
    (session : nat) (connected : bool) (st : State) : State :=
  if connected then setSessionRef (Some session) st
  else startSession_catch st.

Fixpoint lookup_callbacks (session : nat) (l : list (nat * (nat * nat)))
  : option (nat * nat) :=
  match l with
  | [] => None
  | (s, c) :: r => if Nat.eqb s session then Some c else lookup_callbacks session r
  end.

(** Lines 37-61: [onopen] of a session whose callbacks were registered. *)
Definition onopen (session : nat) (st : State) : State :=
  match lookup_callbacks session (callbacks st) with
  | None => st
  | Some (inputCtx, stream) =>
      emit [CreateMediaStreamSource inputCtx stream;                  (* 39 *)
            CreateScriptProcessor inputCtx 4096]                      (* 40 *)
           (setIsActive true st)                                      (* 38 *)
  end.

(** Lines 69-79: create the source, start it at the cursor, advance the
    cursor by the buffer's duration, add the source to the in-flight set. *)
Definition schedule_chunk (out : nat) (audioBuffer : AudioBuffer) (st : State) : State :=
  let source := nextId st in
  let st := emit [CreateBufferSource out source] (bumpId 1 st) in    (* 69 *)
  let st := emit [SourceStart source (nextStartTimeRef st)] st in     (* 77 *)
  let st := setNextStartTime
              (tadd (nextStartTimeRef st) (duration audioBuffer)) st in (* 78 *)
  setSources (set_add source (sourcesRef st)) st.                     (* 79 *)

(** Lines 82-86. *)
Definition handle_interruption (message : LiveServerMessage) (st : State) : State :=
  if is_interrupted message then
    let st := emit (map SourceStop (sourcesRef st)) st in             (* 83 *)
    let st := setSources [] st in                                     (* 84 *)
    setNextStartTime tzero st                                         (* 85 *)
  else st.

(** Lines 88-93. *)
Definition handle_transcripts (message : LiveServerMessage) (st : State) : State :=
  appendTranscripts (input_entry message)
    (appendTranscripts (output_entry message) st).

(** Lines 82-93: what follows the audio branch. *)
Definition onmessage_tail (message : LiveServerMessage) (st : State) : State :=
  handle_transcripts message (handle_interruption message st).

(** Line 64: the audio branch is taken when the payload is truthy and a
    pair of contexts is stored. *)
Definition audio_branch (b64 : option string) (st : State) : option AudioContexts :=
  if truthy_string b64 then audioContextRef st else None.

(** Lines 62-94 run without any other handler in between.  [currentTime] is
    what [output.currentTime] evaluates to at line 66; [decoded] is the
    settlement of [decodeAudioData(decode(base64Audio), ...)] (both imported,
    not part of the hook): a buffer, or [None] when either of them throws.
    A handler that throws keeps the state it had reached. *)
Definition onmessage (message : LiveServerMessage) (currentTime : T)
    (decoded : option AudioBuffer) (st : State) : Completion State :=
  match base64Audio message with                                      (* 63 *)
  | Throw _ => Throw st
  | Normal b64 =>
      match audio_branch b64 st with                                  (* 64 *)
      | Some ctxs =>
          let st := setNextStartTime
                      (tmax (nextStartTimeRef st) currentTime) st in  (* 66 *)
          match decoded with                                          (* 68 *)
          | None => Throw st
          | Some audioBuffer =>
              Normal (onmessage_tail message
                        (schedule_chunk (output ctxs) audioBuffer st))
          end
      | None => Normal (onmessage_tail message st)
      end
  end.

(** Lines 62-68: [onmessage] up to its [await]. *)
Definition onmessage_enter (message : LiveServerMessage) (currentTime : T)
    (st : State) : State :=
  match base64Audio message with
  | Throw _ => st
  | Normal b64 =>
      match audio_branch b64 st with
      | Some ctxs =>
          suspend (AwaitDecodeAudioData message (output ctxs))
                  (setNextStartTime (tmax (nextStartTimeRef st) currentTime) st)
      | None => onmessage_tail message st
      end
  end.

(** Lines 68-94: [onmessage] from the settlement of its [await]. *)
Definition onmessage_resume (message : LiveServerMessage) (out : nat)
    (decoded : option AudioBuffer) (st : State) : State :=
  match decoded with
  | None => st
  | Some audioBuffer => onmessage_tail message (schedule_chunk out audioBuffer st)
  end.

(** Lines 95-99. *)
Definition onerror (st : State) : State :=
  setIsActive false
    (setError (Some "Connection failed. Check your microphone and API configuration."%string)
       (emit [ConsoleError] st)).

(** Line 100. *)
Definition onclose (st : State) : State :=
  setIsActive false st.

(** Lines 73-75: the [ended] listener of a source. *)
Definition onended (source : nat) (st : State) : State :=
  setSources (set_delete source (sourcesRef st)) st.

(** ** Events and the step function *)

Inductive Event :=
| CallStartSession
| CallStopSession
| GetUserMediaSettled (k : nat) (granted : bool)
| SessionPromiseSettled (k : nat) (connected : bool)
| OnOpen (session : nat)
| OnMessage (message : LiveServerMessage) (currentTime : T)
| DecodeAudioDataSettled (k : nat) (decoded : option AudioBuffer)
| OnError
| OnClose
| SourceEnded (source : nat).

(** The pending tasks without the [k]-th. *)
Definition drop_task (k : nat) (p : list Task) : list Task :=
  firstn k p ++ skipn (S k) p.

(** Settle the [k]-th pending task. *)
Definition resume (k : nat) (st : State) : State :=
  setPending (drop_task k (pending st)) st.

(** One event: a call of the hook's two operations, a callback of the
    transport or of a playing source, or the settlement of an awaited
    promise (which does nothing when the [k]-th task is not of its kind). *)
Definition step (st : State) (e : Event) : State :=
  match e with
  | CallStartSession => startSession st
  | CallStopSession => stopSession st
  | GetUserMediaSettled k granted =>
      match nth_error (pending st) k with
      | Some (AwaitGetUserMedia i o) =>
          startSession_afterGetUserMedia i o granted (resume k st)
      | _ => st
      end
  | SessionPromiseSettled k connected =>
      match nth_error (pending st) k with
      | Some (AwaitSessionPromise s) =>
          startSession_afterConnect s connected (resume k st)
      | _ => st
      end
  | OnOpen session => onopen session st
  | OnMessage message currentTime => onmessage_enter message currentTime st
  | DecodeAudioDataSettled k decoded =>
      match nth_error (pending st) k with
      | Some (AwaitDecodeAudioData m o) =>
          onmessage_resume m o decoded (resume k st)
      | _ => st
      end
  | OnError => onerror st
  | OnClose => onclose st
  | SourceEnded source => onended source st
  end.

Definition run (st : State) (es : list Event) : State :=
  fold_left step es st.

(** The two events of one message handled without interleaving: its
    arrival, and the settlement of the task it has just suspended (the last
    one; when none was suspended the index names no task). *)
Definition deliver_events (st : State) (message : LiveServerMessage)
    (currentTime : T) (decoded : option AudioBuffer) : list Event :=
  [OnMessage message currentTime;
   DecodeAudioDataSettled (List.length (pending st)) decoded].

Definition deliver (st : State) (message : LiveServerMessage)
    (currentTime : T) (decoded : option AudioBuffer) : State :=
  run st (deliver_events st message currentTime decoded).

(** ** Observations on a run *)

(** The scheduled playbacks of a log: source and start time, in order. *)
Fixpoint starts (l : list Effect) : list (nat * T) :=
  match l with
  | [] => []
  | SourceStart h t :: r => (h, t) :: starts r
  | _ :: r => starts r
  end.

(** The sources stopped in a log, in order. *)
Fixpoint stops (l : list Effect) : list nat :=
  match l with
  | [] => []
  | SourceStop h :: r => h :: stops r
  | _ :: r => stops r
  end.

(** Calls that acquire a device, a context or a transport session. *)
Definition is_acquisition (e : Effect) : bool :=
  match e with
  | NewAudioContext _ _ | GetUserMedia | LiveConnect _ => true
  | _ => false
  end.

(** Calls that release one. *)
Definition is_release (e : Effect) : bool :=
  match e with
  | AudioContextClose _ | MediaStreamTrackStop _ | SessionClose _ => true
  | _ => false
  end.

Definition acquisitions (l : list Effect) : list Effect := filter is_acquisition l.
Definition releases (l : list Effect) : list Effect := filter is_release l.

(** How often context [ctx] is closed, and stream [stream] stopped, in a log. *)
Definition context_closes (ctx : nat) (l : list Effect) : nat :=
  List.length (filter (fun e => match e with
                                | AudioContextClose c => Nat.eqb c ctx
                                | _ => false end) l).

Definition stream_stops (stream : nat) (l : list Effect) : nat :=
  List.length (filter (fun e => match e with
                                | MediaStreamTrackStop s => Nat.eqb s stream
                                | _ => false end) l).

(** A message that carries a non-empty audio payload. *)
Definition is_chunk (message : LiveServerMessage) : bool :=
  match base64Audio message with
  | Normal b64 => truthy_string b64
  | Throw _ => false
  end.

(** Whether the handler of [message] runs to its end without throwing. *)
Definition completes (message : LiveServerMessage) (decoded : option AudioBuffer)
    (st : State) : bool :=
  match base64Audio message with
  | Throw _ => false
  | Normal b64 =>
      match audio_branch b64 st, decoded with
      | Some _, None => false
      | _, _ => true
      end
  end.

(** An inbound chunk as it is handled: the message, the output clock read
    at line 66, and the decoded buffer. *)
Record Arrival := {
  arr_message : LiveServerMessage;
  arr_clock : T;
  arr_buffer : AudioBuffer
}.

Definition deliver_arrival (st : State) (a : Arrival) : State :=
  deliver st (arr_message a) (arr_clock a) (Some (arr_buffer a)).

(** A sequence of chunks, each handled to its end before the next arrives. *)
Definition deliver_all (st : State) (arrivals : list Arrival) : State :=
  fold_left deliver_arrival arrivals st.

Definition durations (arrivals : list Arrival) : list T :=
  map (fun a => duration (arr_buffer a)) arrivals.

(** A chunk with no interruption flag, of non-negative duration. *)
Definition plain_chunk (a : Arrival) : Prop :=
  is_chunk (arr_message a) = true /\
  is_interrupted (arr_message a) = false /\
  tleb tzero (duration (arr_buffer a)) = true.

(** The schedule as the specification words it: each chunk starts at
    [max(nextStartTime, now)], and [nextStartTime] becomes that start plus
    the chunk's duration. *)
Fixpoint spec_starts (next : T) (arrivals : list Arrival) : list T :=
  match arrivals with
  | [] => []
  | a :: r =>
      let startAt := tmax next (arr_clock a) in
      startAt :: spec_starts (tadd startAt (duration (arr_buffer a))) r
  end.

Fixpoint spec_cursor (next : T) (arrivals : list Arrival) : T :=
  match arrivals with
  | [] => next
  | a :: r =>
      spec_cursor (tadd (tmax next (arr_clock a)) (duration (arr_buffer a))) r
  end.

(** [start(i+1) >= start(i) + d_i] along a schedule of (start, duration). *)
Fixpoint no_overlap (sched : list (T * T)) : Prop :=
  match sched with
  | (s1, d1) :: (((s2, _) :: _) as r) =>
      tleb (tadd s1 d1) s2 = true /\ no_overlap r
  | _ => True
  end.

Fixpoint nondecreasing (l : list T) : Prop :=
  match l with
  | t1 :: ((t2 :: _) as r) => tleb t1 t2 = true /\ nondecreasing r
  | _ => True
  end.

(** What "the chunk is dropped" says of the states before and after. *)
Definition chunk_dropped (st st' : State) : Prop :=
  starts (log st') = starts (log st) /\
  sourcesRef st' = sourcesRef st /\
  nextStartTimeRef st' = nextStartTimeRef st.

(** The exits of a session: explicit stop, transport error, transport close. *)
Definition exit_events : list Event := [CallStopSession; OnError; OnClose].

(** Whether event [e] in state [st] runs lines 83-85. *)
Definition runs_interruption (st : State) (e : Event) : bool :=
  match e with
  | OnMessage m _ =>
      match base64Audio m with
      | Throw _ => false
      | Normal b64 =>
          match audio_branch b64 st with
          | Some _ => false
          | None => is_interrupted m
          end
      end
  | DecodeAudioDataSettled k (Some _) =>
      match nth_error (pending st) k with
      | Some (AwaitDecodeAudioData m _) => is_interrupted m
      | _ => false
      end
  | _ => false
  end.

(** Buffers have non-negative durations. *)
Definition nonneg_event (e : Event) : Prop :=
  match e with
  | DecodeAudioDataSettled _ (Some b) => tleb tzero (duration b) = true
  | _ => True
  end.

(** A run in which durations are non-negative and no step runs lines
    83-85. *)
Fixpoint uninterrupted (st : State) (es : list Event) : Prop :=
  match es with
  | [] => True
  | e :: r =>
      nonneg_event e /\ runs_interruption st e = false /\
      uninterrupted (step st e) r
  end.

(** The playback a step schedules, if any: start time and duration. *)
Definition scheduled_by (st : State) (e : Event) : list (T * T) :=
  match e with
  | DecodeAudioDataSettled k (Some b) =>
      match nth_error (pending st) k with
      | Some (AwaitDecodeAudioData _ _) => [(nextStartTimeRef st, duration b)]
      | _ => []
      end
  | _ => []
  end.

(** The playbacks a run schedules, in order. *)
Fixpoint scheduled (st : State) (es : list Event) : list (T * T) :=
  match es with
  | [] => []
  | e :: r => scheduled_by st e ++ scheduled (step st e) r
  end.

(** The events of a session's life other than its messages. *)
Definition lifecycle_event (e : Event) : bool :=
  match e with
  | OnMessage _ _ | DecodeAudioDataSettled _ _ => false
  | _ => true
  end.

End Hook.

Arguments State T : clear implicits.
Arguments Event T : clear implicits.
Arguments Effect T : clear implicits.
Arguments AudioBuffer T : clear implicits.
Arguments Arrival T : clear implicits.

(** ** Concrete runs (times in milliseconds) *)

Module Run.

Definition buffer (d : Z) : AudioBuffer Z := {| duration := d |}.

(** A session brought up: [startSession], microphone granted, transport
    connected and open.  The contexts are objects 0 and 1, the microphone
    stream is object 2, the transport session is object 3. *)
Definition session_events : list (Event Z) :=
  [CallStartSession; GetUserMediaSettled 0 true;
   SessionPromiseSettled 0 true; OnOpen 3].

Definition active : State Z := run initial session_events.

(** The active session after one chunk of 500 ms arrived at clock 0. *)
Definition played : State Z :=
  deliver active (chunk_message "AAAA") 0 (Some (buffer 500)).

(** The active session after [stopSession]. *)
Definition stopped : State Z := step active CallStopSession.

Definition arrival (clock d : Z) : Arrival Z :=
  {| arr_message := chunk_message "AAAA"; arr_clock := clock;
     arr_buffer := buffer d |}.

(** The contexts of the session. *)
Definition ctxs : AudioContexts := {| input := 0; output := 1 |}.

(** Two chunks of 500 ms, arriving at clock 0 and at clock 100. *)
Definition two_chunks : list (Arrival Z) := [arrival 0 500; arrival 100 500].


(** A message with a chunk and the interruption flag, while the first
    chunk plays. *)
Definition barged : State Z :=
  deliver played (chunk_and_interruption_message "AAAA") 100 (Some (buffer 500)).

(** A chunk that arrives after [stopSession]. *)
Definition late : State Z :=
  deliver stopped (chunk_message "AAAA") 0 (Some (buffer 500)).

(** [startSession] called again in the active session, microphone granted. *)
Definition started_twice : State Z :=
  run active [CallStartSession; GetUserMediaSettled 0 true].

(** The session that played one chunk is stopped and a new one brought up
    (contexts 5 and 6, stream 7, transport session 8). *)
Definition restarted : State Z :=
  run played [CallStopSession; CallStartSession; GetUserMediaSettled 0 true;
              SessionPromiseSettled 0 true; OnOpen 8].

(** A session that received one transcript, and the session brought up
    after it (contexts 4 and 5, stream 6, transport session 7). *)
Definition talked : State Z :=
  deliver active (output_transcript_message "hello") 0 None.

Definition talked_again : State Z :=
  run talked [CallStartSession; GetUserMediaSettled 0 true;
              SessionPromiseSettled 0 true; OnOpen 7].

(** The second chunk of [two_chunks] has arrived and awaits its decoding. *)
Definition awaiting : State Z :=
  step played (OnMessage (chunk_message "AAAA") 100).

End Run.

(** What "released exactly once" says of a log, for the two contexts and
    the microphone stream of a session. *)
Definition released_exactly_once {T : Type} (l : list (Effect T))
    (ctxs : AudioContexts) (stream : nat) : Prop :=
  context_closes (input ctxs) l = 1%nat /\
  context_closes (output ctxs) l = 1%nat /\
  stream_stops stream l = 1%nat.

(** What "the call is rejected without side effects" says of the states
    before and after. *)
Definition rejected_without_effects {T : Type} (st st' : State T) : Prop :=
  acquisitions (log st') = acquisitions (log st) /\
  audioContextRef st' = audioContextRef st.

(** * Further definitions *)

From Stdlib Require Import Ascii.

(** ** The in-flight set along a run *)

(** What one step can do to the playback bookkeeping: the scheduled
    playbacks of the log, the stopped sources of the log, the in-flight set
    and the next fresh identity. *)
Inductive PlaybackChange {T : Type} (st st' : State T) : Prop :=
| PlaybackKept :
    starts (log st') = starts (log st) ->
    stops (log st') = stops (log st) ->
    sourcesRef st' = sourcesRef st ->
    (nextId st <= nextId st')%nat ->
    PlaybackChange st st'
| PlaybackEnded (h : nat) :
    starts (log st') = starts (log st) ->
    stops (log st') = stops (log st) ->
    sourcesRef st' = set_delete h (sourcesRef st) ->
    nextId st' = nextId st ->
    PlaybackChange st st'
| PlaybackFlushed :
    starts (log st') = starts (log st) ->
    stops (log st') = stops (log st) ++ sourcesRef st ->
    sourcesRef st' = [] ->
    nextId st' = nextId st ->
    PlaybackChange st st'
| PlaybackScheduled (t : T) :
    starts (log st') = starts (log st) ++ [(nextId st, t)] ->
    stops (log st') = stops (log st) ->
    sourcesRef st' = set_add (nextId st) (sourcesRef st) ->
    nextId st' = S (nextId st) ->
    PlaybackChange st st'
| PlaybackScheduledAndFlushed (t : T) :
    starts (log st') = starts (log st) ++ [(nextId st, t)] ->
    stops (log st') = stops (log st) ++ set_add (nextId st) (sourcesRef st) ->
    sourcesRef st' = [] ->
    nextId st' = S (nextId st) ->
    PlaybackChange st st'.

(** The sources a log has started. *)
Definition started {T : Type} (l : list (Effect T)) : list nat :=
  map fst (starts l).

(** The bookkeeping is consistent: identities in use are below the next
    fresh one, no source is in flight, started or stopped twice, a source in
    flight has been started and not stopped, a stopped source has been
    started. *)
Record Consistent {T : Type} (st : State T) : Prop := {
  in_flight_below : forall h, In h (sourcesRef st) -> (h < nextId st)%nat;
  started_below : forall h, In h (started (log st)) -> (h < nextId st)%nat;
  in_flight_nodup : NoDup (sourcesRef st);
  started_nodup : NoDup (started (log st));
  stopped_nodup : NoDup (stops (log st));
  in_flight_started : forall h, In h (sourcesRef st) -> In h (started (log st));
  in_flight_unstopped : forall h, In h (sourcesRef st) -> ~ In h (stops (log st));
  stopped_started : forall h, In h (stops (log st)) -> In h (started (log st))
}.

(** ** The session's standing along a run *)

(** A pending microphone request was made; a session reported active has
    registered callbacks; registered
    callbacks come from a connection request, made after a microphone
    request; and wherever a microphone request is pending or callbacks are
    registered, a pair of contexts is stored. *)
Record Standing {T : Type} (st : State T) : Prop := {
  pending_asked :
    forall i o, In (AwaitGetUserMedia i o) (pending st) -> In GetUserMedia (log st);
  active_has_callbacks : isActive st = true -> callbacks st <> [];
  callbacks_connected :
    forall s c, In (s, c) (callbacks st) -> In (LiveConnect s) (log st);
  connected_asked :
    forall s, In (LiveConnect s) (log st) -> In GetUserMedia (log st);
  asked_has_contexts :
    In GetUserMedia (log st) -> audioContextRef st <> None
}.

(** A transcript entry carries the tag of its speaker. *)
Definition tagged_entry (s : string) : Prop :=
  exists t, s = ("AI: " ++ t)%string \/ s = ("You: " ++ t)%string.

Module Scenario.

(** A message with a chunk, the interruption flag and both transcriptions. *)
Definition loaded_message : LiveServerMessage :=
  {| serverContent :=
       Some {| modelTurn :=
                 Some {| parts := Some [ {| inlineData := Some {| data := Some "AAAA"%string |} |} ] |};
               interrupted := Some true;
               outputTranscription := Some {| text := Some "hi"%string |};
               inputTranscription := Some {| text := None |} |} |}.

(** The first chunk plays; a second chunk arrives at clock 100, an
    interruption is handled at clock 200, then the second chunk's decoding
    settles. *)
Definition race_events : list (Event Z) :=
  [OnMessage (chunk_message "AAAA") 100;
   OnMessage interruption_message 200;
   DecodeAudioDataSettled 0 (Some (Run.buffer 500))].

Definition raced : State Z := run Run.played race_events.

(** A session whose microphone request is denied, and one whose connection
    fails. *)
Definition denied : State Z :=
  run initial [CallStartSession; GetUserMediaSettled 0 false].

Definition unconnected : State Z :=
  run initial [CallStartSession; GetUserMediaSettled 0 true;
               SessionPromiseSettled 0 false].

End Scenario.

(** * The request service ([GeminiService], first file of
      [src/unnamed/part_000]) *)

(** The line feed of a template literal. *)
Definition nl : string := String "010"%char EmptyString.

(** Truthiness of an optional boolean. *)
Definition truthy_bool (b : option bool) : bool :=
  match b with Some true => true | _ => false end.

(** How a call that may throw ends. *)
Inductive Outcome (A : Type) : Type :=
| Returned (a : A)
| ThrewTypeError
| ThrewError (message : string).
Arguments Returned {A} a.
Arguments ThrewTypeError {A}.
Arguments ThrewError {A} message.

(** [s.split(sep)] for a one-character separator: the pieces between the
    occurrences of [sep], never an empty list. *)
Fixpoint split_on (sep : ascii) (s : string) : list string :=
  match s with
  | EmptyString => [EmptyString]
  | String c r =>
      if Ascii.eqb c sep then EmptyString :: split_on sep r
      else match split_on sep r with
           | piece :: pieces => String c piece :: pieces
           | [] => [String c EmptyString]
           end
  end.

(** [s.split(',')[1]]: the second piece, [undefined] when there is none. *)
Definition after_comma (s : string) : option string :=
  nth_error (split_on ","%char s) 1.

(** Whether a character occurs in a string. *)
Fixpoint occurs (c : ascii) (s : string) : bool :=
  match s with
  | EmptyString => false
  | String d r => Ascii.eqb d c || occurs c r
  end.

(** [s.slice(0, n)].  A string of this development is a sequence of 8-bit
    characters, and [slice0] counts those; the source's strings are
    sequences of UTF-16 code units, and [slice] counts those.  The two
    counts agree on text in the ASCII range. *)
Definition slice0 (n : nat) (s : string) : string := substring 0 n s.

Module GeminiService.

(** [AgentRole] of [src/types.ts]. *)
Inductive AgentRole := general | analyst | coder | researcher.

(** Lines 12-23. *)
Definition getRoleInstruction (role : AgentRole) : string :=
  match role with
  | analyst => "You are an expert Data Analyst. Focus on statistical significance, trends, and actionable insights. When provided with data, output observations as a structured breakdown."
  | coder => "You are a Senior Software Architect. Provide clean, documented, and efficient code. Focus on edge cases and performance."
  | researcher => "You are a Lead Scientific Researcher. Provide deeply cited, objective summaries of complex topics. Maintain a formal and academic tone."
  | general => "You are a helpful and versatile AI Assistant."
  end%string.

Record LatLng := { latitude : spec_float; longitude : spec_float }.

(** Lines 28-35: the options of [chat], each of them optional. *)
Record ChatOptions := {
  thinking : option bool;
  useSearch : option bool;
  useMaps : option bool;
  role : option AgentRole;
  context : option string;
  location : option LatLng
}.

Inductive Tool := googleSearch | googleMaps.

(** The [config] object [chat] builds (lines 41-60); a key that is not set
    is [None]. *)
Record Config := {
  systemInstruction : string;
  thinkingConfig : option Z;
  toolConfig : option LatLng;
  tools : option (list Tool)
}.

Record ChatRequest := { model : string; contents : string; config : Config }.

(** Line 38, [options.role || 'general']: every role name is truthy. *)
Definition role_or_general (r : option AgentRole) : AgentRole :=
  match r with Some x => x | None => general end.

(** Lines 38-39. *)
Definition chat_instruction (options : ChatOptions) : string :=
  (getRoleInstruction (role_or_general (role options))
   ++ (if truthy_string (context options)
       then nl ++ nl ++ "USE THIS CONTEXT TO ANSWER: "
            ++ match context options with Some c => c | None => "" end
       else ""))%string.

(** Lines 49-58: the tools pushed, in order. *)
Definition chat_tools (options : ChatOptions) : list Tool :=
  (if truthy_bool (useSearch options) then [googleSearch] else [])
  ++ (if truthy_bool (useMaps options) then [googleMaps] else []).

(** Lines 36-66: the request [chat] sends. *)
Definition chat (prompt : string) (options : ChatOptions) : ChatRequest :=
  {| model := if truthy_bool (thinking options)
              then "gemini-3-pro-preview" else "gemini-3-flash-preview";   (* 37 *)
     contents := prompt;
     config :=
       {| systemInstruction := chat_instruction options;                   (* 41-43 *)
          thinkingConfig :=
            if truthy_bool (thinking options) then Some 32768 else None;   (* 45-47 *)
          toolConfig :=
            if truthy_bool (useMaps options) then location options
            else None;                                                     (* 51-58 *)
          tools :=
            match chat_tools options with
            | [] => None
            | ts => Some ts
            end |} |}.                                                     (* 60 *)

(** Line 76: the prompt [analyzeData] sends. *)
Definition analyzeData_contents (csvContent query : string) : string :=
  ("Context: Here is a CSV data snippet:" ++ nl ++ slice0 10000 csvContent
   ++ nl ++ nl ++ "Query: " ++ query)%string.

(** The fields of a response that [generateImage] reads. *)
Record Candidate := { content : option Content }.
Record GenerateContentResponse := { candidates : option (list Candidate) }.

(** A template literal prints a missing [data] as [undefined]. *)
Definition data_or_undefined (b : Blob) : string :=
  match data b with Some d => d | None => "undefined"%string end.

(** Lines 100-105: the loop over the parts and the [throw] after it. *)
Fixpoint first_inline (ps : list Part) : Outcome string :=
  match ps with
  | [] => ThrewError "Failed to generate image"
  | p :: r =>
      match inlineData p with
      | Some b => Returned ("data:image/png;base64," ++ data_or_undefined b)%string
      | None => first_inline r
      end
  end.

(** Lines 100-105 on a response: [response.candidates[0].content.parts]
    throws a TypeError at the first missing link, and so does iterating over
    missing [parts]. *)
Definition generateImage_result (response : GenerateContentResponse) : Outcome string :=
  match candidates response with
  | Some (c :: _) =>
      match content c with
      | Some ct =>
          match parts ct with
          | Some ps => first_inline ps
          | None => ThrewTypeError
          end
      | None => ThrewTypeError
      end
  | _ => ThrewTypeError
  end.

(** [response.candidates[0].content.parts], [None] for a missing link. *)
Definition image_parts (response : GenerateContentResponse) : option (list Part) :=
  match candidates response with
  | Some (c :: _) =>
      match content c with
      | Some ct => parts ct
      | None => None
      end
  | _ => None
  end.

(** Lines 123-128: the [image] key of the video request. *)
Record ImagePayload := { imageBytes : option string; mimeType : string }.

Definition startImage_payload (startImage : option string) : option ImagePayload :=
  match startImage with
  | Some s =>
      if truthy_string startImage
      then Some {| imageBytes := after_comma s; mimeType := "image/png" |}
      else None
  | None => None
  end.

(** The fields of a video operation that [generateVideo] reads. *)
Record Video := { uri : option string }.
Record GeneratedVideo := { video : option Video }.
Record VideosResponse := { generatedVideos : option (list GeneratedVideo) }.
Record Operation := { done : option bool; response : option VideosResponse }.

(** Lines 130-135: poll until an operation is done.  [later] holds the
    operations the service answers with, in order; the result is the
    operation the loop ends on, with the number of polls made, or [None]
    when the answers run out with the loop still waiting. *)
Fixpoint poll (operation : Operation) (later : list Operation) : option (Operation * nat) :=
  if truthy_bool (done operation) then Some (operation, 0%nat)
  else match later with
       | [] => None
       | next :: rest =>
           match poll next rest with
           | Some (final, n) => Some (final, S n)
           | None => None
           end
       end.

(** Line 137: [operation.response?.generatedVideos?.[0]?.video?.uri]. *)
Definition downloadLink (operation : Operation) : option string :=
  match response operation with
  | Some r =>
      match generatedVideos r with
      | Some (g :: _) =>
          match video g with
          | Some v => uri v
          | None => None
          end
      | _ => None
      end
  | None => None
  end.

(** Lines 130-140: the address fetched once the polling has ended, or the
    error thrown; [apiKey] is how [process.env.API_KEY] prints. *)
Definition generateVideo_fetch (apiKey : string) (first : Operation)
    (later : list Operation) : option (Outcome string) :=
  match poll first later with
  | None => None
  | Some (final, _) =>
      Some (if truthy_string (downloadLink final)
            then Returned (match downloadLink final with Some l => l | None => "" end
                           ++ "&key=" ++ apiKey)%string
            else ThrewError "Video generation failed - no download URI returned.")
  end.

End GeminiService.

(** A part without inline data, and an operation that is not done. *)
Definition no_inline (p : Part) : Prop := inlineData p = None.

Definition waiting (op : GeminiService.Operation) : Prop :=
  truthy_bool (GeminiService.done op) = false.

(** * The application component ([App], second file of
      [src/unnamed/part_000]; line numbers are those of that file) *)

(** [a || b] on optional strings. *)
Definition or_string (a b : option string) : option string :=
  if truthy_string a then a else b.

(** [l.join(sep)]. *)
Fixpoint join (sep : string) (l : list string) : string :=
  match l with
  | [] => EmptyString
  | x :: r =>
      match r with
      | [] => x
      | _ :: _ => (x ++ sep ++ join sep r)%string
      end
  end.

(** The white space and line terminators [trim] removes, among the
    characters below 256: tab, line feed, vertical tab, form feed, carriage
    return, space and no-break space. *)
Definition js_space (c : ascii) : bool :=
  match nat_of_ascii c with
  | 9%nat | 10%nat | 11%nat | 12%nat | 13%nat | 32%nat | 160%nat => true
  | _ => false
  end.

(** [!s.trim()]: the string is empty once trimmed, that is, it holds
    nothing but white space. *)
Fixpoint blank (s : string) : bool :=
  match s with
  | EmptyString => true
  | String c r => js_space c && blank r
  end.

Module App.

Inductive AppMode := CHAT | LIVE | GENERATE | ANALYST | RAG.

Inductive FileStatus := indexing | ready.

(** [RAGFile] of [src/types.ts]. *)
Record RAGFile := {
  file_id : string;
  file_name : string;
  file_content : string;
  file_type : string;
  status : FileStatus
}.

Record Place := { uri : option string; title : option string }.
Record GroundingChunk := { web : option Place; maps : option Place }.

Inductive Speaker := user | assistant.
Inductive MessageType := text | image | video | analysis | error.

(** [ChatMessage] of [src/types.ts], with the keys the component sets; an
    id is the number [Date.now()] gave, before it is printed. *)
Record ChatMessage := {
  id : Z;
  role : Speaker;
  content : string;
  type : MessageType;
  groundingSources : option (list GroundingChunk)
}.

(** What the component reads of a response (lines 242-244): [text], and
    [candidates?.[0]?.groundingMetadata?.groundingChunks]. *)
Record Response := {
  response_text : option string;
  groundingChunks : option (list GroundingChunk)
}.

Record Position := { lat : spec_float; lng : spec_float }.

(** A call of the request service. *)
Inductive Call :=
| CallChat (prompt : string) (options : GeminiService.ChatOptions)
| CallAnalyzeData (csvContent query : string).

(** Lines 166-180: the state cells, followed by the surroundings: the
    calls made to the request service and the number of sends suspended at
    their [await]. *)
Record State := {
  mode : AppMode;
  messages : list ChatMessage;
  inputValue : string;
  isProcessing : bool;
  thinking : bool;
  useSearch : bool;
  useMaps : bool;
  agentRole : GeminiService.AgentRole;
  location : option Position;
  ragFiles : list RAGFile;
  analysisFile : option RAGFile;
  calls : list Call;
  awaiting : nat
}.

(** Lines 166-180: the initial values. *)
Definition initial : State :=
  {| mode := CHAT; messages := []; inputValue := EmptyString;
     isProcessing := false; thinking := false; useSearch := true;
     useMaps := false; agentRole := GeminiService.general; location := None;
     ragFiles := []; analysisFile := None; calls := []; awaiting := 0 |}.

Definition is_ready (f : RAGFile) : bool :=
  match status f with ready => true | indexing => false end.

(** Line 218: one file in the context. *)
Definition file_block (f : RAGFile) : string :=
  ("File: " ++ file_name f ++ nl ++ "Content: " ++ file_content f)%string.

Definition rag_separator : string := (nl ++ nl ++ "---" ++ nl ++ nl)%string.

(** Lines 216-219. *)
Definition rag_context (files : list RAGFile) : string :=
  join rag_separator (map file_block (filter is_ready files)).

(** Lines 215-237: the call a send makes. *)
Definition send_call (st : State) : Call :=
  match mode st, analysisFile st with
  | RAG, _ =>
      CallChat (inputValue st)
        {| GeminiService.thinking := Some (thinking st);
           GeminiService.useSearch := Some (useSearch st);
           GeminiService.useMaps := None;
           GeminiService.role := Some GeminiService.researcher;
           GeminiService.context := Some (rag_context (ragFiles st));
           GeminiService.location := None |}
  | ANALYST, Some f => CallAnalyzeData (file_content f) (inputValue st)
  | _, _ =>
      CallChat (inputValue st)
        {| GeminiService.thinking := Some (thinking st);
           GeminiService.useSearch := Some (useSearch st);
           GeminiService.useMaps := Some (useMaps st);
           GeminiService.role := Some (agentRole st);
           GeminiService.context := None;
           GeminiService.location :=
             match location st with
             | Some p => Some {| GeminiService.latitude := lat p;
                                 GeminiService.longitude := lng p |}
             | None => None
             end |}
  end.

(** Lines 199-237: [handleSendMessage] up to its [await]; [now] is what
    [Date.now()] gives at line 203. *)
Definition handleSendMessage (now : Z) (st : State) : State :=
  if blank (inputValue st) || isProcessing st then st                      (* 200 *)
  else
    {| mode := mode st;
       messages := messages st
                   ++ [ {| id := now; role := user; content := inputValue st;
                           type := text; groundingSources := None |} ];     (* 202-209 *)
       inputValue := EmptyString;                                          (* 210 *)
       isProcessing := true;                                               (* 211 *)
       thinking := thinking st; useSearch := useSearch st; useMaps := useMaps st;
       agentRole := agentRole st; location := location st;
       ragFiles := ragFiles st; analysisFile := analysisFile st;
       calls := calls st ++ [send_call st];
       awaiting := S (awaiting st) |}.

(** Lines 239-255: the message appended when the call settles: the
    response's text, or a fixed apology when that is missing or empty; on a
    failed call a fixed error message. *)
Definition reply (now : Z) (outcome : option Response) : ChatMessage :=
  match outcome with
  | Some r =>
      {| id := now + 1; role := assistant;
         content := match or_string (response_text r)
                            (Some "Sorry, I encountered an issue."%string) with
                    | Some s => s
                    | None => EmptyString
                    end;
         type := text;
         groundingSources := groundingChunks r |}
  | None =>
      {| id := now; role := assistant;
         content := "An error occurred during communication with Gemini.";
         type := error; groundingSources := None |}
  end.

(** Lines 239-258: [handleSendMessage] from the settlement of its
    [await]; nothing settles when no send is suspended. *)
Definition settle (now : Z) (outcome : option Response) (st : State) : State :=
  match awaiting st with
  | O => st
  | S n =>
      {| mode := mode st;
         messages := messages st ++ [reply now outcome];                   (* 247, 250 *)
         inputValue := inputValue st;
         isProcessing := false;                                            (* 257 *)
         thinking := thinking st; useSearch := useSearch st; useMaps := useMaps st;
         agentRole := agentRole st; location := location st;
         ragFiles := ragFiles st; analysisFile := analysisFile st;
         calls := calls st;
         awaiting := n |}
  end.

(** The other state changes the component makes, each a setter call of
    the source. *)
Inductive Setter :=
| SetMode (m : AppMode)                         (* Sidebar, line 32 *)
| SetRole (r : GeminiService.AgentRole)         (* line 307 *)
| ToggleThinking                                (* line 370 *)
| ToggleSearch                                  (* line 378 *)
| SetInputValue (s : string)                    (* line 390 *)
| AddRagFile (f : RAGFile)                      (* line 278 *)
| RemoveRagFile (i : string)                    (* line 433 *)
| SetAnalysisFile (f : option RAGFile)          (* lines 280, 468 *)
| Located (p : Position).                       (* lines 190-196 *)

Definition apply_setter (s : Setter) (st : State) : State :=
  {| mode := match s with SetMode m => m | _ => mode st end;
     messages := messages st;
     inputValue := match s with SetInputValue v => v | _ => inputValue st end;
     isProcessing := isProcessing st;
     thinking := match s with ToggleThinking => negb (thinking st) | _ => thinking st end;
     useSearch := match s with ToggleSearch => negb (useSearch st) | _ => useSearch st end;
     useMaps := useMaps st;
     agentRole := match s with SetRole r => r | _ => agentRole st end;
     location :=
       match s with
       | Located p =>
           (* the effect asks for the position only with [useMaps] set and
              no position stored *)
           match useMaps st, location st with
           | true, None => Some p
           | _, _ => location st
           end
       | _ => location st
       end;
     ragFiles :=
       match s with
       | AddRagFile f => ragFiles st ++ [f]
       | RemoveRagFile i =>
           filter (fun f => negb (String.eqb (file_id f) i)) (ragFiles st)
       | _ => ragFiles st
       end;
     analysisFile := match s with SetAnalysisFile f => f | _ => analysisFile st end;
     calls := calls st;
     awaiting := awaiting st |}.

Inductive Event :=
| Send (now : Z)
| Settle (now : Z) (outcome : option Response)
| Set_ (s : Setter).

Definition step (st : State) (e : Event) : State :=
  match e with
  | Send now => handleSendMessage now st
  | Settle now outcome => settle now outcome st
  | Set_ s => apply_setter s st
  end.

Definition run (st : State) (es : list Event) : State := fold_left step es st.

(** [n] completed turns: a user message, then an assistant message. *)
Fixpoint turns (n : nat) : list Speaker :=
  match n with
  | O => []
  | S k => user :: assistant :: turns k
  end.

(** The request a call of [chat] sends. *)
Definition chat_requests (cs : list Call) : list GeminiService.ChatRequest :=
  flat_map (fun c => match c with
                     | CallChat p o => [GeminiService.chat p o]
                     | CallAnalyzeData _ _ => []
                     end) cs.

(** Lines 335-345: the link shown for a grounding source, address and
    label, or nothing. *)
Definition source_link (source : GroundingChunk) : option (string * string) :=
  let web_uri := match web source with Some p => uri p | None => None end in
  let maps_uri := match maps source with Some p => uri p | None => None end in
  let web_title := match web source with Some p => title p | None => None end in
  let maps_title := match maps source with Some p => title p | None => None end in
  let url := or_string web_uri maps_uri in                                  (* 336 *)
  let label := or_string (or_string web_title maps_title)
                         (Some "Reference"%string) in                       (* 337 *)
  match url, label with
  | Some u, Some l => if truthy_string url then Some (u, l) else None       (* 338 *)
  | _, _ => None
  end.

End App.

(** A call that does not ask for the maps tool. *)
Definition without_maps (c : App.Call) : Prop :=
  match c with
  | App.CallChat _ o => truthy_bool (GeminiService.useMaps o) = false
  | App.CallAnalyzeData _ _ => True
  end.

(** * The generator view ([GeneratorView], lines 549-565 of the second
      file of [src/unnamed/part_000]) *)

Module Generator.

(** Lines 550-557. *)
Definition status_messages : list string :=
  ["Analyzing scene dynamics...";
   "Generating keyframes...";
   "Synthesizing high-fidelity textures...";
   "Optimizing temporal coherence...";
   "Polishing final render...";
   "Wrapping up your cinematic masterpiece..."]%string.

(** Line 561: [idx = (idx + 1) % messages.length]. *)
Definition tick (idx : nat) : nat :=
  (idx + 1) mod List.length status_messages.

(** Line 558 and [n] runs of the interval callback. *)
Fixpoint status_index (n : nat) : nat :=
  match n with
  | O => 0
  | S k => tick (status_index k)
  end.

(** Lines 559 and 562: [messages[idx]] after [n] runs of the callback,
    [None] for [undefined]. *)
Definition status_after (n : nat) : option string :=
  nth_error status_messages (status_index n).

End Generator.

(** * Sending the captured blocks (lines 42-57 of the hook) *)

Module CaptureSend.

Section WithEncode.

(** The imported [encode] (bytes to transport text), which is not part of
    the hook. *)
Variable encode : list Z -> string.

(** Lines 49-52: [pcmBlob]. *)
Record Frame := { frame_data : string; frame_mimeType : string }.

Definition pcmBlob (inputData : list spec_float) : Frame :=
  {| frame_data := encode (Capture.pcm16 inputData);
     frame_mimeType := "audio/pcm;rate=16000" |}.

Inductive PromiseState := Pending | Fulfilled | Rejected.

(** [sessionPromise] with the reactions [then] has registered on it while
    it is pending, in registration order, and the frames handed to
    [sendRealtimeInput], in call order. *)
Record State := {
  promise : PromiseState;
  reactions : list Frame;
  sent : list Frame
}.

Definition initial : State :=
  {| promise := Pending; reactions := []; sent := [] |}.

(** Lines 42-57: one run of [onaudioprocess].  On a pending promise
    [then] registers the reaction; on a fulfilled one the reaction runs
    before any later callback; on a rejected one it never runs. *)
Definition onaudioprocess (inputData : list spec_float) (st : State) : State :=
  match promise st with
  | Pending =>
      {| promise := Pending; reactions := reactions st ++ [pcmBlob inputData];
         sent := sent st |}
  | Fulfilled =>
      {| promise := Fulfilled; reactions := reactions st;
         sent := sent st ++ [pcmBlob inputData] |}
  | Rejected => st
  end.

(** The settlement of [sessionPromise]: a promise settles once; on
    fulfilment the registered reactions run in registration order. *)
Definition settle (connected : bool) (st : State) : State :=
  match promise st with
  | Pending =>
      if connected
      then {| promise := Fulfilled; reactions := []; sent := sent st ++ reactions st |}
      else {| promise := Rejected; reactions := []; sent := sent st |}
  | _ => st
  end.

Inductive Event :=
| AudioProcess (inputData : list spec_float)
| Settled (connected : bool).

Definition step (st : State) (e : Event) : State :=
  match e with
  | AudioProcess inputData => onaudioprocess inputData st
  | Settled connected => settle connected st
  end.

Definition run (st : State) (es : list Event) : State := fold_left step es st.

(** The frames of the blocks captured in a run, in capture order. *)
Definition captured (es : list Event) : list Frame :=
  flat_map (fun e => match e with
                     | AudioProcess inputData => [pcmBlob inputData]
                     | Settled _ => []
                     end) es.

End WithEncode.

End CaptureSend.

Module Scene.

(** The component in RAG mode with one ready file and one file still being
    indexed, and a question typed. *)
Definition notes : App.RAGFile :=
  {| App.file_id := "a1"; App.file_name := "notes.txt";
     App.file_content := "alpha"; App.file_type := "text/plain";
     App.status := App.ready |}.

Definition draft : App.RAGFile :=
  {| App.file_id := "b2"; App.file_name := "draft.txt";
     App.file_content := "beta"; App.file_type := "text/plain";
     App.status := App.indexing |}.

Definition asking : App.State :=
  App.run App.initial
    [App.Set_ (App.SetMode App.RAG); App.Set_ (App.AddRagFile notes);
     App.Set_ (App.AddRagFile draft); App.Set_ (App.SetInputValue "why?")].

(** A grounding source with a title from the web entry and an address from
    the maps entry only. *)
Definition mixed_source : App.GroundingChunk :=
  {| App.web := Some {| App.uri := Some EmptyString; App.title := Some "Web title"%string |};
     App.maps := Some {| App.uri := Some "https://maps.example/x"%string;
                         App.title := Some "Maps title"%string |} |}.

(** A grounding source with a maps entry only, without a title. *)
Definition untitled_source : App.GroundingChunk :=
  {| App.web := None;
     App.maps := Some {| App.uri := Some "https://maps.example/y"%string;
                         App.title := None |} |}.

End Scene.

(** * Properties *)

(** ** The integers satisfy the laws of times *)

#[export] Instance Z_TimeLaws : TimeLaws Z.
Proof.
  constructor; cbn; intros.
  - apply Z.leb_refl.
  - apply Z.leb_le in H, H0. apply Z.leb_le. lia.
  - destruct (Z.le_ge_cases a b) as [L | L]; [left | right]; now apply Z.leb_le.
  - apply Z.leb_le in H. apply Z.leb_le. lia.
Qed.

(** ** PCM16 conversion *)

Lemma ToInt16_range (x : spec_float) :
  -32768 <= Capture.ToInt16 x < 32768.
Proof.
  unfold Capture.ToInt16.
  pose proof (Z.mod_pos_bound (Capture.truncate x) 65536 eq_refl) as B.
  destruct (32768 <=? Capture.truncate x mod 65536) eqn:E.
  - apply Z.leb_le in E. lia.
  - apply Z.leb_gt in E. lia.
Qed.

Lemma ToInt16_congruent (x : spec_float) :
  (Capture.ToInt16 x - Capture.truncate x) mod 65536 = 0.
Proof.
  unfold Capture.ToInt16.
  set (t := Capture.truncate x).
  pose proof (Z.div_mod t 65536 ltac:(lia)) as D.
  destruct (32768 <=? t mod 65536).
  - replace (t mod 65536 - 65536 - t) with ((- (t / 65536) - 1) * 65536) by lia.
    apply Z.mod_mul. lia.
  - replace (t mod 65536 - t) with ((- (t / 65536)) * 65536) by lia.
    apply Z.mod_mul. lia.
Qed.

Lemma int16_bytes_roundtrip (v : Z) :
  -32768 <= v < 32768 ->
  exists lo hi,
    Capture.int16_bytes v = [lo; hi] /\
    0 <= lo < 256 /\ 0 <= hi < 256 /\
    Capture.int16_of_bytes lo hi = v.
Proof.
  intros R. exists (v mod 256), ((v / 256) mod 256).
  pose proof (Z.mod_pos_bound v 256 eq_refl).
  pose proof (Z.mod_pos_bound (v / 256) 256 eq_refl).
  repeat split; try lia.
  unfold Capture.int16_of_bytes.
  pose proof (Z.div_mod v 256 ltac:(lia)) as D.
  assert (Q : -128 <= v / 256 < 128).
  { split.
    - apply Z.div_le_lower_bound; lia.
    - apply Z.div_lt_upper_bound; lia. }
  destruct (Z_lt_le_dec v 0) as [N | N].
  - assert (v / 256 < 0) by (apply Z.div_lt_upper_bound; lia).
    assert (M : (v / 256) mod 256 = v / 256 + 256).
    { symmetry. apply (Z.mod_unique (v / 256) 256 (-1)); lia. }
    rewrite M.
    destruct (32768 <=? v mod 256 + 256 * (v / 256 + 256)) eqn:E.
    + lia.
    + apply Z.leb_gt in E. lia.
  - assert (0 <= v / 256) by (apply Z.div_pos; lia).
    assert (M : (v / 256) mod 256 = v / 256) by (apply Z.mod_small; lia).
    rewrite M.
    destruct (32768 <=? v mod 256 + 256 * (v / 256)) eqn:E.
    + apply Z.leb_le in E. lia.
    + lia.
Qed.

Lemma pcm16_cons (sample : spec_float) (rest : list spec_float) :
  Capture.pcm16 (sample :: rest)
  = Capture.int16_bytes (Capture.ToInt16 (Capture.scale sample)) ++ Capture.pcm16 rest.
Proof. reflexivity. Qed.

Lemma pcm16_length (inputData : list spec_float) :
  List.length (Capture.pcm16 inputData) = (2 * List.length inputData)%nat.
Proof.
  induction inputData as [| x r IH].
  - reflexivity.
  - rewrite pcm16_cons. cbn [Capture.int16_bytes app List.length].
    rewrite IH. lia.
Qed.

Lemma pcm16_zeros (n : nat) :
  Capture.pcm16 (repeat Capture.f_zero n) = repeat 0 (2 * n).
Proof.
  induction n as [| n IH].
  - reflexivity.
  - replace (2 * S n)%nat with (S (S (2 * n))) by lia.
    cbn [repeat]. rewrite pcm16_cons, IH. reflexivity.
Qed.

(** C7.  The capture callback turns every sample into the two bytes, low
    byte first, of [ToInt16(sample * 32768)]: the product truncated toward
    zero and reduced modulo 2^16 into the signed 16-bit range, with nothing
    that clips (1.0 becomes -32768, 1.5 becomes -16384; -0.5 after scaling
    becomes 0).  A block of 4096
    zero samples becomes 8192 zero bytes. *)
Theorem pcm16_encoding :
  (forall inputData,
      List.length (Capture.pcm16 inputData) = (2 * List.length inputData)%nat) /\
  (forall sample rest,
      let v := Capture.ToInt16 (Capture.scale sample) in
      exists lo hi,
        Capture.pcm16 (sample :: rest) = lo :: hi :: Capture.pcm16 rest /\
        0 <= lo < 256 /\ 0 <= hi < 256 /\
        Capture.int16_of_bytes lo hi = v /\
        -32768 <= v < 32768 /\
        (v - Capture.truncate (Capture.scale sample)) mod 65536 = 0) /\
  (Capture.truncate (Capture.scale Capture.f_one) = 32768 /\
   Capture.pcm16 [Capture.f_one] = [0; 128] /\
   Capture.int16_of_bytes 0 128 = -32768) /\
  (Capture.truncate (Capture.scale Capture.f_one_half) = 49152 /\
   Capture.ToInt16 (Capture.scale Capture.f_one_half) = -16384) /\
  (Capture.ToInt16 (Capture.scale Capture.f_minus_tiny) = 0) /\
  Capture.pcm16 (repeat Capture.f_zero 4096) = repeat 0 8192.
Proof.
  split; [exact pcm16_length |].
  split.
  { intros sample rest v.
    destruct (int16_bytes_roundtrip v (ToInt16_range _)) as (lo & hi & B & Rlo & Rhi & V).
    exists lo, hi. rewrite pcm16_cons. fold v. rewrite B.
    repeat split; try assumption; try apply ToInt16_range; try lia.
    apply ToInt16_congruent. }
  split; [vm_compute; repeat split; reflexivity |].
  split; [vm_compute; split; reflexivity |].
  split; [vm_compute; reflexivity |].
  exact (pcm16_zeros 4096).
Qed.

(** ** The session: basic facts *)

Section HookFacts.

Context {T : Type} {time_ops : TimeOps T}.


Lemma starts_app (l1 l2 : list (Effect T)) :
  starts (l1 ++ l2) = starts l1 ++ starts l2.
Proof.
  induction l1 as [| e l1 IH]; [reflexivity |].
  destruct e; cbn [app starts]; rewrite IH; reflexivity.
Qed.

Lemma stops_app (l1 l2 : list (Effect T)) :
  stops (l1 ++ l2) = stops l1 ++ stops l2.
Proof.
  induction l1 as [| e l1 IH]; [reflexivity |].
  destruct e; cbn [app stops]; rewrite IH; reflexivity.
Qed.

Lemma stops_map_SourceStop (hs : list nat) :
  stops (map (@SourceStop T) hs) = hs.
Proof. induction hs as [| h hs IH]; [reflexivity | cbn; now rewrite IH]. Qed.

Lemma starts_map_SourceStop (hs : list nat) :
  starts (map (@SourceStop T) hs) = [].
Proof. induction hs as [| h hs IH]; [reflexivity | cbn; exact IH]. Qed.

Lemma releases_map_SourceStop (hs : list nat) :
  releases (map (@SourceStop T) hs) = [].
Proof. induction hs as [| h hs IH]; [reflexivity | cbn; exact IH]. Qed.

Lemma acquisitions_map_SourceStop (hs : list nat) :
  acquisitions (map (@SourceStop T) hs) = [].
Proof. induction hs as [| h hs IH]; [reflexivity | cbn; exact IH]. Qed.

Lemma releases_app (l1 l2 : list (Effect T)) :
  releases (l1 ++ l2) = releases l1 ++ releases l2.
Proof. apply filter_app. Qed.

Lemma acquisitions_app (l1 l2 : list (Effect T)) :
  acquisitions (l1 ++ l2) = acquisitions l1 ++ acquisitions l2.
Proof. apply filter_app. Qed.

Lemma nth_error_last (p : list Task) (t : Task) :
  nth_error (p ++ [t]) (List.length p) = Some t.
Proof.
  rewrite nth_error_app2 by apply Nat.le_refl.
  now rewrite Nat.sub_diag.
Qed.

Lemma nth_error_end (p : list Task) :
  nth_error p (List.length p) = None.
Proof. apply nth_error_None. apply Nat.le_refl. Qed.

Lemma drop_task_last (p : list Task) (t : Task) :
  drop_task (List.length p) (p ++ [t]) = p.
Proof.
  unfold drop_task.
  rewrite firstn_app, Nat.sub_diag, firstn_all. cbn [firstn].
  rewrite skipn_all2 by (rewrite length_app; cbn; lia).
  now rewrite !app_nil_r.
Qed.

Lemma pending_onmessage_tail (m : LiveServerMessage) (st : State T) :
  pending (onmessage_tail m st) = pending st.
Proof.
  unfold onmessage_tail, handle_transcripts, handle_interruption.
  destruct (is_interrupted m); reflexivity.
Qed.

(** Resuming the task that was just suspended restores the task list. *)
Lemma resume_suspend (t : Task) (st : State T) :
  resume (List.length (pending st)) (suspend t st) = st.
Proof.
  unfold resume, suspend. destruct st; cbn -[drop_task].
  now rewrite drop_task_last.
Qed.

(** A message handled without interleaving: the two events amount to the
    handler run as one piece. *)
Lemma deliver_atomic (st : State T) (m : LiveServerMessage) (now : T)
    (decoded : option (AudioBuffer T)) :
  deliver st m now decoded = completed (onmessage m now decoded st).
Proof.
  unfold deliver, deliver_events, run. cbn [fold_left step].
  unfold onmessage_enter, onmessage.
  destruct (base64Audio m) as [b64 | b64].
  - destruct (audio_branch b64 st) as [ctxs |].
    + set (st1 := setNextStartTime (tmax (nextStartTimeRef st) now) st).
      change (pending st) with (pending st1).
      replace (nth_error (pending (suspend (AwaitDecodeAudioData m (output ctxs)) st1))
                 (List.length (pending st1)))
        with (Some (AwaitDecodeAudioData m (output ctxs)))
        by (symmetry; apply nth_error_last).
      rewrite resume_suspend.
      destruct decoded; reflexivity.
    + rewrite <- (pending_onmessage_tail m st).
      now rewrite nth_error_end.
  - now rewrite nth_error_end.
Qed.

Lemma is_normal_onmessage (st : State T) (m : LiveServerMessage) (now : T)
    (decoded : option (AudioBuffer T)) :
  is_normal (onmessage m now decoded st) = completes m decoded st.
Proof.
  unfold onmessage, completes.
  destruct (base64Audio m) as [b64 | b64]; [| reflexivity].
  change (audio_branch b64 (setNextStartTime (tmax (nextStartTimeRef st) now) st))
    with (audio_branch b64 st).
  destruct (audio_branch b64 st); [| reflexivity].
  destruct decoded; reflexivity.
Qed.

End HookFacts.

(** ** Scheduling *)

Section Scheduling.

Context {T : Type} {time_ops : TimeOps T}.

Lemma onmessage_chunk (st : State T) (ctxs : AudioContexts)
    (m : LiveServerMessage) (now : T) (buf : AudioBuffer T) :
  audioContextRef st = Some ctxs ->
  is_chunk m = true ->
  onmessage m now (Some buf) st
  = Normal (onmessage_tail m
              (schedule_chunk (output ctxs) buf
                 (setNextStartTime (tmax (nextStartTimeRef st) now) st))).
Proof.
  intros C K. unfold onmessage, is_chunk in *.
  destruct (base64Audio m) as [b64 | b64]; [| discriminate].
  unfold audio_branch. rewrite K, C. reflexivity.
Qed.

(** What handling one chunk without interruption flag does. *)
Lemma deliver_chunk (st : State T) (ctxs : AudioContexts)
    (m : LiveServerMessage) (now : T) (buf : AudioBuffer T) :
  audioContextRef st = Some ctxs ->
  is_chunk m = true ->
  is_interrupted m = false ->
  let st' := deliver st m now (Some buf) in
  log st' = log st ++ [CreateBufferSource (output ctxs) (nextId st);
                       SourceStart (nextId st) (tmax (nextStartTimeRef st) now)] /\
  nextStartTimeRef st' = tadd (tmax (nextStartTimeRef st) now) (duration buf) /\
  sourcesRef st' = set_add (nextId st) (sourcesRef st) /\
  audioContextRef st' = audioContextRef st /\
  nextId st' = S (nextId st).
Proof.
  intros C K I st'. subst st'.
  rewrite deliver_atomic, (onmessage_chunk st ctxs) by assumption.
  unfold completed, onmessage_tail, handle_interruption. rewrite I.
  cbn. rewrite <- app_assoc. cbn.
  repeat split. apply Nat.add_1_r.
Qed.

Context {time_laws : TimeLaws T}.

Lemma tmax_ge_l (a b : T) : tleb a (tmax a b) = true.
Proof.
  unfold tmax. destruct (tleb a b) eqn:E; [exact E | apply tleb_refl].
Qed.


Lemma spec_starts_no_overlap (arrivals : list (Arrival T)) (next : T) :
  no_overlap (combine (spec_starts next arrivals) (durations arrivals)).
Proof.
  revert next. induction arrivals as [| a r IH]; intros next; [exact I |].
  destruct r as [| b r']; [exact I |].
  specialize (IH (tadd (tmax next (arr_clock a)) (duration (arr_buffer a)))).
  cbn in *. split; [apply tmax_ge_l | exact IH].
Qed.

Lemma spec_starts_nondecreasing (arrivals : list (Arrival T)) (next : T) :
  Forall plain_chunk arrivals ->
  nondecreasing (spec_starts next arrivals).
Proof.
  revert next. induction arrivals as [| a r IH]; intros next F; [exact I |].
  inversion F as [| ? ? Pa Fr]; subst.
  destruct r as [| b r']; [exact I |].
  specialize (IH (tadd (tmax next (arr_clock a)) (duration (arr_buffer a))) Fr).
  cbn in *. split; [| exact IH].
  destruct Pa as (_ & _ & D).
  eapply tleb_trans; [apply tadd_nonneg; exact D | apply tmax_ge_l].
Qed.

(** C1.  A sequence of chunks, each handled to its end before the next
    arrives and none carrying the interruption flag: the start times logged
    are those of the rule [startAt = max(nextStartTime, now)],
    [nextStartTime = startAt + duration]; consecutive starts satisfy
    [start(i+1) >= start(i) + d_i], and the starts never decrease. *)
Theorem schedule_without_interruption
    (st : State T) (ctxs : AudioContexts) (arrivals : list (Arrival T)) :
  audioContextRef st = Some ctxs ->
  Forall plain_chunk arrivals ->
  let st' := deliver_all st arrivals in
  let new_starts := spec_starts (nextStartTimeRef st) arrivals in
  map snd (starts (log st')) = map snd (starts (log st)) ++ new_starts /\
  nextStartTimeRef st' = spec_cursor (nextStartTimeRef st) arrivals /\
  no_overlap (combine new_starts (durations arrivals)) /\
  nondecreasing new_starts.
Proof.
  intros C F. cbv zeta.
  split; [| split; [| split]].
  - revert st C. induction F as [| a r Pa Fr IH]; intros st C.
    + cbn. now rewrite app_nil_r.
    + destruct Pa as (K & I & _).
      destruct (deliver_chunk st ctxs (arr_message a) (arr_clock a) (arr_buffer a) C K I)
        as (L & N & _ & A & _).
      cbn [deliver_all fold_left spec_starts].
      change (fold_left deliver_arrival r (deliver_arrival st a))
        with (deliver_all (deliver_arrival st a) r).
      unfold deliver_arrival at 1.
      rewrite IH by (rewrite A; exact C).
      unfold deliver_arrival. rewrite L, N, starts_app, map_app. cbn.
      now rewrite <- app_assoc.
  - revert st C. induction F as [| a r Pa Fr IH]; intros st C.
    + reflexivity.
    + destruct Pa as (K & I & _).
      destruct (deliver_chunk st ctxs (arr_message a) (arr_clock a) (arr_buffer a) C K I)
        as (_ & N & _ & A & _).
      cbn [deliver_all fold_left spec_cursor].
      change (fold_left deliver_arrival r (deliver_arrival st a))
        with (deliver_all (deliver_arrival st a) r).
      rewrite IH by (unfold deliver_arrival; rewrite A; exact C).
      unfold deliver_arrival. now rewrite N.
  - apply spec_starts_no_overlap.
  - now apply spec_starts_nondecreasing.
Qed.

(** *** Any interleaving of the handlers *)

Lemma step_starts (st : State T) (e : Event T) :
  map snd (starts (log (step st e)))
  = map snd (starts (log st)) ++ map fst (scheduled_by st e).
Proof.
  destruct e as [| | k g | k c | s | m now | k d | | | h];
    cbn [step scheduled_by map]; rewrite ?app_nil_r.
  - cbn -[starts]. rewrite !starts_app. cbn. now rewrite !app_nil_r.
  - reflexivity.
  - destruct (nth_error (pending st) k) as [[i o | s | m o] |]; try reflexivity.
    destruct g; cbn -[starts]; rewrite !starts_app; cbn; now rewrite !app_nil_r.
  - destruct (nth_error (pending st) k) as [[i o | s | m o] |]; try reflexivity.
    destruct c; cbn -[starts]; [reflexivity |].
    rewrite !starts_app. cbn. now rewrite !app_nil_r.
  - unfold onopen. destruct (lookup_callbacks s (callbacks st)) as [[i str] |];
      [| reflexivity].
    cbn -[starts]. rewrite !starts_app. cbn. now rewrite !app_nil_r.
  - unfold onmessage_enter.
    destruct (base64Audio m) as [b64 | b64]; [| reflexivity].
    destruct (audio_branch b64 st); [reflexivity |].
    unfold onmessage_tail, handle_interruption.
    destruct (is_interrupted m); [| reflexivity].
    cbn -[starts]. rewrite starts_app, starts_map_SourceStop. now rewrite app_nil_r.
  - destruct d as [buf |].
    + destruct (nth_error (pending st) k) as [[i o | s | m o] |];
        cbn [map]; rewrite ?app_nil_r; try reflexivity.
      unfold onmessage_resume, onmessage_tail, handle_interruption.
      destruct (is_interrupted m); cbn -[starts].
      * rewrite !starts_app, starts_map_SourceStop. cbn.
        now rewrite !app_nil_r, map_app.
      * rewrite !starts_app. cbn. now rewrite !app_nil_r, map_app.
    + rewrite app_nil_r.
      destruct (nth_error (pending st) k) as [[i o | s | m o] |]; reflexivity.
  - cbn -[starts]. rewrite !starts_app. cbn. now rewrite !app_nil_r.
  - reflexivity.
  - reflexivity.
Qed.

Lemma run_starts (es : list (Event T)) (st : State T) :
  map snd (starts (log (run st es)))
  = map snd (starts (log st)) ++ map fst (scheduled st es).
Proof.
  revert st. induction es as [| e es IH]; intros st.
  - cbn. now rewrite app_nil_r.
  - cbn [run fold_left scheduled].
    change (fold_left step es (step st e)) with (run (step st e) es).
    now rewrite IH, step_starts, map_app, app_assoc.
Qed.

Lemma step_cursor_quiet (st : State T) (e : Event T) :
  nonneg_event e -> runs_interruption st e = false ->
  tleb (nextStartTimeRef st) (nextStartTimeRef (step st e)) = true.
Proof.
  intros D Q.
  destruct e as [| | k g | k c | s | m now | k d | | | h]; cbn [step];
    try apply tleb_refl.
  - destruct (nth_error (pending st) k) as [[i o | s | m o] |]; try apply tleb_refl.
    destruct g; apply tleb_refl.
  - destruct (nth_error (pending st) k) as [[i o | s | m o] |]; try apply tleb_refl.
    destruct c; apply tleb_refl.
  - unfold onopen.
    destruct (lookup_callbacks s (callbacks st)) as [[i str] |]; apply tleb_refl.
  - unfold onmessage_enter. cbn [runs_interruption] in Q.
    destruct (base64Audio m) as [b64 | b64]; [| apply tleb_refl].
    destruct (audio_branch b64 st) as [ctxs |].
    + cbn. apply tmax_ge_l.
    + unfold onmessage_tail, handle_interruption. rewrite Q. apply tleb_refl.
  - cbn [runs_interruption] in Q. destruct d as [buf |].
    + destruct (nth_error (pending st) k) as [[i o | s | m o] |]; try apply tleb_refl.
      unfold onmessage_resume, onmessage_tail, handle_interruption. rewrite Q.
      cbn. now apply tadd_nonneg.
    + destruct (nth_error (pending st) k) as [[i o | s | m o] |]; apply tleb_refl.
Qed.

(** After a step that schedules a playback and does not run the
    interruption lines, the cursor is that playback's end. *)
Lemma step_scheduled_cursor (st : State T) (e : Event T) (s d : T) :
  runs_interruption st e = false ->
  scheduled_by st e = [(s, d)] ->
  s = nextStartTimeRef st /\ nextStartTimeRef (step st e) = tadd s d.
Proof.
  intros Q E.
  destruct e as [| | k g | k c | ses | m now | k [buf |] | | | h];
    cbn [scheduled_by] in E; try discriminate.
  cbn [step runs_interruption] in *.
  destruct (nth_error (pending st) k) as [[i o | ses | m o] |]; try discriminate.
  injection E as <- <-.
  unfold onmessage_resume, onmessage_tail, handle_interruption. rewrite Q.
  split; reflexivity.
Qed.

Lemma scheduled_by_cases (st : State T) (e : Event T) :
  scheduled_by st e = [] \/ exists d, scheduled_by st e = [(nextStartTimeRef st, d)].
Proof.
  destruct e as [| | k g | k c | ses | m now | k [buf |] | | | h];
    cbn [scheduled_by]; try (now left).
  destruct (nth_error (pending st) k) as [[i o | ses | m o] |]; try (now left).
  right. now exists (duration buf).
Qed.

Lemma scheduled_lower_bound (es : list (Event T)) (st : State T)
    (s d : T) (rest : list (T * T)) :
  uninterrupted st es ->
  scheduled st es = (s, d) :: rest ->
  tleb (nextStartTimeRef st) s = true.
Proof.
  revert st. induction es as [| e es IH]; intros st U E; [discriminate |].
  destruct U as (D & Q & U). cbn [scheduled] in E.
  destruct (scheduled_by_cases st e) as [N | (d' & N)]; rewrite N in E.
  - eapply tleb_trans; [apply (step_cursor_quiet st e D Q) |].
    now apply IH.
  - injection E as <- _ _. apply tleb_refl.
Qed.

(** Whatever the order in which arrivals and decode settlements
    interleave, as long as no step runs the interruption lines: each
    playback starts at or after the end of the one scheduled before it, and
    the start times in the log are those of the playbacks scheduled. *)
Theorem schedule_any_interleaving (es : list (Event T)) (st : State T) :
  uninterrupted st es ->
  no_overlap (scheduled st es) /\
  map snd (starts (log (run st es)))
  = map snd (starts (log st)) ++ map fst (scheduled st es).
Proof.
  intros U. split; [| apply run_starts].
  revert st U. induction es as [| e es IH]; intros st U; [exact I |].
  destruct U as (D & Q & U). cbn [scheduled].
  specialize (IH (step st e) U).
  destruct (scheduled_by_cases st e) as [N | (d & N)]; rewrite N; [exact IH |].
  destruct (step_scheduled_cursor st e _ _ Q N) as (_ & C).
  cbn [app].
  destruct (scheduled (step st e) es) as [| [s2 d2] rest] eqn:E; [exact I |].
  split; [| exact IH].
  rewrite <- C. exact (scheduled_lower_bound es (step st e) s2 d2 rest U E).
Qed.

End Scheduling.

(** ** Interruption *)

Section Interruption.

Context {T : Type} {time_ops : TimeOps T}.

Lemma set_add_keeps (h x : nat) (s : list nat) : In x s -> In x (set_add h s).
Proof.
  intros M. unfold set_add. destruct (existsb (Nat.eqb h) s); [exact M |].
  apply in_or_app. now left.
Qed.

Lemma set_add_has (h : nat) (s : list nat) : In h (set_add h s).
Proof.
  unfold set_add. destruct (existsb (Nat.eqb h) s) eqn:E.
  - apply existsb_exists in E. destruct E as (x & M & Q).
    apply Nat.eqb_eq in Q. now subst x.
  - apply in_or_app. right. now left.
Qed.

(** Lines 82-93 on a message with the interruption flag. *)
Lemma onmessage_tail_interrupted (m : LiveServerMessage) (st : State T) :
  is_interrupted m = true ->
  let st' := onmessage_tail m st in
  sourcesRef st' = [] /\
  nextStartTimeRef st' = tzero /\
  log st' = log st ++ map SourceStop (sourcesRef st) /\
  audioContextRef st' = audioContextRef st /\
  nextId st' = nextId st.
Proof.
  intros I. unfold onmessage_tail, handle_interruption. rewrite I.
  cbn. repeat split.
Qed.




(** C9.  A message with the interruption flag: its handler runs to its end
    exactly when reading the payload does not throw and the payload, if it
    is scheduled, decodes; when it does, the in-flight set is empty and
    [nextStartTime] is zero.  With a chunk in the same message the chunk's
    source is created and started first, then stopped along with every other
    source in flight. *)
Theorem interrupted_message_leaves_nothing_in_flight
    (st : State T) (m : LiveServerMessage) (now : T)
    (decoded : option (AudioBuffer T)) :
  is_interrupted m = true ->
  is_normal (onmessage m now decoded st) = completes m decoded st /\
  (forall st', onmessage m now decoded st = Normal st' ->
               deliver st m now decoded = st' /\
               sourcesRef st' = [] /\ nextStartTimeRef st' = tzero) /\
  (forall ctxs buf,
      audioContextRef st = Some ctxs ->
      is_chunk m = true ->
      decoded = Some buf ->
      exists st',
        onmessage m now decoded st = Normal st' /\
        log st' = log st
                  ++ [CreateBufferSource (output ctxs) (nextId st);
                      SourceStart (nextId st) (tmax (nextStartTimeRef st) now)]
                  ++ map SourceStop (set_add (nextId st) (sourcesRef st)) /\
        In (SourceStop (nextId st)) (log st')).
Proof.
  intros I. split; [apply is_normal_onmessage |]. split.
  - intros st' E. split; [rewrite deliver_atomic, E; reflexivity |].
    unfold onmessage in E.
    destruct (base64Audio m) as [b64 | b64]; [| discriminate].
    destruct (audio_branch b64 st) as [ctxs |].
    + destruct decoded as [buf |]; [| discriminate].
      injection E as <-.
      split; apply (onmessage_tail_interrupted m _ I).
    + injection E as <-.
      split; apply (onmessage_tail_interrupted m _ I).
  - intros ctxs buf C K ->.
    rewrite (onmessage_chunk st ctxs) by assumption.
    eexists. split; [reflexivity |].
    destruct (onmessage_tail_interrupted m
                (schedule_chunk (output ctxs) buf
                   (setNextStartTime (tmax (nextStartTimeRef st) now) st)) I)
      as (_ & _ & L1 & _).
    assert (L : log (onmessage_tail m
                       (schedule_chunk (output ctxs) buf
                          (setNextStartTime (tmax (nextStartTimeRef st) now) st)))
                = log st
                  ++ [CreateBufferSource (output ctxs) (nextId st);
                      SourceStart (nextId st) (tmax (nextStartTimeRef st) now)]
                  ++ map SourceStop (set_add (nextId st) (sourcesRef st))).
    { rewrite L1. cbn. rewrite <- !app_assoc. reflexivity. }
    split; [exact L |].
    rewrite L. apply in_or_app. right. apply in_or_app. right.
    apply in_map. apply set_add_has.
Qed.

End Interruption.

(** ** Lifecycle *)

Section Lifecycle.

Context {T : Type} {time_ops : TimeOps T}.

Lemma onmessage_tail_stopSession (m : LiveServerMessage) (st : State T) :
  onmessage_tail m (stopSession st) = stopSession (onmessage_tail m st).
Proof.
  unfold onmessage_tail, handle_interruption, handle_transcripts, stopSession.
  destruct (is_interrupted m); reflexivity.
Qed.

Lemma onmessage_tail_plain (m : LiveServerMessage) (st : State T) :
  is_interrupted m = false ->
  let st' := onmessage_tail m st in
  log st' = log st /\ sourcesRef st' = sourcesRef st /\
  nextStartTimeRef st' = nextStartTimeRef st.
Proof.
  intros I. unfold onmessage_tail, handle_interruption. rewrite I.
  cbn. repeat split.
Qed.

(** C4 (as the code has it).  [stopSession] only sets [isActive] to
    false: it keeps the stored contexts, the in-flight set, the cursor and
    the log, and the message handler never reads [isActive].  Handling a
    message after [stopSession] therefore gives the state that handling it
    before would give, with [isActive] false.  In particular a chunk that
    arrives after [stopSession] with contexts stored, whose payload decodes
    and whose message carries no interruption flag, is started at
    [max(nextStartTime, now)], joins the in-flight set and advances
    [nextStartTime] by its duration. *)
Theorem chunk_after_stop_is_handled_as_before
    (st : State T) (m : LiveServerMessage) (now : T)
    (decoded : option (AudioBuffer T)) :
  deliver (stopSession st) m now decoded = stopSession (deliver st m now decoded) /\
  (isActive (stopSession st) = false /\
   audioContextRef (stopSession st) = audioContextRef st /\
   sourcesRef (stopSession st) = sourcesRef st /\
   nextStartTimeRef (stopSession st) = nextStartTimeRef st /\
   log (stopSession st) = log st) /\
  (forall ctxs buf,
      audioContextRef st = Some ctxs ->
      is_chunk m = true ->
      is_interrupted m = false ->
      decoded = Some buf ->
      let st' := deliver (stopSession st) m now decoded in
      starts (log st') = starts (log st) ++ [(nextId st, tmax (nextStartTimeRef st) now)] /\
      sourcesRef st' = set_add (nextId st) (sourcesRef st) /\
      nextStartTimeRef st' = tadd (tmax (nextStartTimeRef st) now) (duration buf)).
Proof.
  split; [| split; [repeat split |]].
  - rewrite !deliver_atomic. unfold onmessage.
    destruct (base64Audio m) as [b64 | b64]; [| reflexivity].
    change (audio_branch b64 (stopSession st)) with (audio_branch b64 st).
    destruct (audio_branch b64 st) as [ctxs |].
    + destruct decoded as [buf |]; [| reflexivity].
      cbn [completed].
      change (schedule_chunk (output ctxs) buf
                (setNextStartTime (tmax (nextStartTimeRef (stopSession st)) now)
                   (stopSession st)))
        with (stopSession
                (schedule_chunk (output ctxs) buf
                   (setNextStartTime (tmax (nextStartTimeRef st) now) st))).
      apply onmessage_tail_stopSession.
    + cbn [completed]. apply onmessage_tail_stopSession.
  - intros ctxs buf C K I -> st'.
    destruct (deliver_chunk (stopSession st) ctxs m now buf C K I) as (L & N & S & _).
    subst st'. rewrite L, N, S, starts_app. cbn. repeat split.
Qed.

Lemma step_releases (st : State T) (e : Event T) :
  releases (log (step st e)) = releases (log st).
Proof.
  destruct e as [| | k g | k c | s | m now | k d | | | h]; cbn [step].
  - cbn -[releases]. rewrite !releases_app. cbn. now rewrite !app_nil_r.
  - reflexivity.
  - destruct (nth_error (pending st) k) as [[i o | s | m o] |]; try reflexivity.
    destruct g; cbn -[releases]; rewrite !releases_app; cbn; now rewrite !app_nil_r.
  - destruct (nth_error (pending st) k) as [[i o | s | m o] |]; try reflexivity.
    destruct c; cbn -[releases]; [reflexivity |].
    rewrite !releases_app. cbn. now rewrite !app_nil_r.
  - unfold onopen. destruct (lookup_callbacks s (callbacks st)) as [[i str] |];
      [| reflexivity].
    cbn -[releases]. rewrite !releases_app. cbn. now rewrite !app_nil_r.
  - unfold onmessage_enter.
    destruct (base64Audio m) as [b64 | b64]; [| reflexivity].
    destruct (audio_branch b64 st); [reflexivity |].
    unfold onmessage_tail, handle_interruption.
    destruct (is_interrupted m); [| reflexivity].
    cbn -[releases]. rewrite releases_app, releases_map_SourceStop. now rewrite app_nil_r.
  - destruct (nth_error (pending st) k) as [[i o | s | m o] |]; try reflexivity.
    destruct d as [buf |]; [| reflexivity].
    unfold onmessage_resume, onmessage_tail, handle_interruption.
    destruct (is_interrupted m); cbn -[releases].
    + rewrite !releases_app, releases_map_SourceStop. cbn. now rewrite !app_nil_r.
    + rewrite !releases_app. cbn. now rewrite !app_nil_r.
  - cbn -[releases]. rewrite !releases_app. cbn. now rewrite !app_nil_r.
  - reflexivity.
  - reflexivity.
Qed.

Lemma run_releases (es : list (Event T)) (st : State T) :
  releases (log (run st es)) = releases (log st).
Proof.
  revert st. induction es as [| e es IH]; intros st; [reflexivity |].
  cbn [run fold_left]. change (fold_left step es (step st e)) with (run (step st e) es).
  now rewrite IH, step_releases.
Qed.

(** C5 (as the code has it).  On each exit of a session ([stopSession],
    transport error, transport close) the hook sets [isActive] to false and
    keeps the stored contexts, the transport session and the registered
    callbacks; it makes no release call, and no run of the hook ever makes
    one.  A transport error sets the error message; [stopSession] and a
    transport close leave it as it was. *)
Theorem exits_release_nothing (st : State T) :
  (forall e, In e exit_events ->
     let st' := step st e in
     isActive st' = false /\
     releases (log st') = releases (log st) /\
     audioContextRef st' = audioContextRef st /\
     sessionRef st' = sessionRef st /\
     callbacks st' = callbacks st /\
     sourcesRef st' = sourcesRef st) /\
  (forall es, releases (log (run st es)) = releases (log st)) /\
  (releases (@log T initial) = [] /\
   forall es, releases (log (run (@initial T _) es)) = []) /\
  (error (step st OnError)
   = Some "Connection failed. Check your microphone and API configuration."%string /\
   error (step st CallStopSession) = error st /\
   error (step st OnClose) = error st).
Proof.
  split; [| split; [| split; [split |]]].
  - intros e M st'. subst st'.
    repeat split; try apply step_releases;
      cbn in M; destruct M as [<- | [<- | [<- | []]]]; reflexivity.
  - intros es. apply run_releases.
  - reflexivity.
  - intros es. now rewrite run_releases.
  - repeat split.
Qed.

(** C8.  [stopSession] twice gives the state [stopSession] once gives; it
    leaves the reported error and the log of platform calls as they were
    (so nothing is released, once or twice); on a state whose [isActive] is
    already false it changes nothing. *)
Theorem stopSession_idempotent (st : State T) :
  step (step st CallStopSession) CallStopSession = step st CallStopSession /\
  run st [CallStopSession; CallStopSession] = run st [CallStopSession] /\
  error (step st CallStopSession) = error st /\
  log (run st [CallStopSession; CallStopSession]) = log st /\
  releases (log (run st [CallStopSession; CallStopSession])) = releases (log st) /\
  (isActive st = false -> step st CallStopSession = st).
Proof.
  repeat split.
  intros A. destruct st. cbn in *. now subst.
Qed.

(** C3 (as the code has it).  [startSession] reads no state before it
    acts: in every state, active or not, it creates two new contexts (16 kHz
    and 24 kHz), stores them in place of the previous pair, asks for the
    microphone, and on a grant opens a new transport session; [isActive] is
    left as it was and nothing is released. *)
Theorem startSession_has_no_guard (st : State T) :
  let st' := step st CallStartSession in
  let st'' := step st' (GetUserMediaSettled (List.length (pending st)) true) in
  isActive st' = isActive st /\
  acquisitions (log st')
  = acquisitions (log st)
    ++ [NewAudioContext (nextId st) 16000;
        NewAudioContext (S (nextId st)) 24000; GetUserMedia] /\
  audioContextRef st' = Some {| input := nextId st; output := S (nextId st) |} /\
  releases (log st') = releases (log st) /\
  acquisitions (log st'')
  = acquisitions (log st') ++ [LiveConnect (S (nextId st + 2))] /\
  isActive st'' = isActive st /\
  releases (log st'') = releases (log st).
Proof.
  cbv zeta.
  assert (P : nth_error (pending (step st CallStartSession)) (List.length (pending st))
              = Some (AwaitGetUserMedia (nextId st) (S (nextId st)))).
  { cbn. apply nth_error_last. }
  split; [reflexivity |].
  split; [cbn -[acquisitions]; rewrite !acquisitions_app; cbn; now rewrite <- !app_assoc |].
  split; [reflexivity |].
  split; [apply step_releases |].
  split; [| split].
  - unfold step at 1. rewrite P. cbn -[acquisitions]. rewrite !acquisitions_app. cbn.
    now rewrite !app_nil_r, <- !app_assoc.
  - unfold step at 1. rewrite P. reflexivity.
  - now rewrite !step_releases.
Qed.

End Lifecycle.

(** ** The playback cursor and the transcript log *)

Section Cursor.

Context {T : Type} {time_ops : TimeOps T} {time_laws : TimeLaws T}.

Lemma step_cursor (st : State T) (e : Event T) :
  nonneg_event e ->
  (runs_interruption st e = true -> nextStartTimeRef (step st e) = tzero) /\
  (runs_interruption st e = false ->
   tleb (nextStartTimeRef st) (nextStartTimeRef (step st e)) = true).
Proof.
  intros D.
  destruct e as [| | k g | k c | s | m now | k d | | | h]; cbn [step runs_interruption];
    try (split; [discriminate | intros _; apply tleb_refl]).
  - split; [discriminate | intros _].
    destruct (nth_error (pending st) k) as [[i o | s | m o] |]; try apply tleb_refl.
    destruct g; apply tleb_refl.
  - split; [discriminate | intros _].
    destruct (nth_error (pending st) k) as [[i o | s | m o] |]; try apply tleb_refl.
    destruct c; apply tleb_refl.
  - split; [discriminate | intros _]. unfold onopen.
    destruct (lookup_callbacks s (callbacks st)) as [[i str] |]; apply tleb_refl.
  - unfold onmessage_enter.
    destruct (base64Audio m) as [b64 | b64];
      [| split; [discriminate | intros _; apply tleb_refl]].
    destruct (audio_branch b64 st) as [ctxs |].
    + split; [discriminate | intros _]. cbn. apply tmax_ge_l.
    + unfold onmessage_tail, handle_interruption.
      destruct (is_interrupted m); split; try discriminate; intros _;
        [reflexivity | apply tleb_refl].
  - destruct d as [buf |].
    + destruct (nth_error (pending st) k) as [[i o | s | m o] |];
        try (split; [discriminate | intros _; apply tleb_refl]).
      unfold onmessage_resume, onmessage_tail, handle_interruption.
      destruct (is_interrupted m); split; try discriminate; intros _;
        [reflexivity |].
      cbn. now apply tadd_nonneg.
    + split; [discriminate | intros _].
      destruct (nth_error (pending st) k) as [[i o | s | m o] |]; apply tleb_refl.
Qed.

Lemma run_cursor (es : list (Event T)) (st : State T) :
  uninterrupted st es ->
  tleb (nextStartTimeRef st) (nextStartTimeRef (run st es)) = true.
Proof.
  revert st. induction es as [| e es IH]; intros st U.
  - apply tleb_refl.
  - destruct U as (D & Q & U).
    cbn [run fold_left]. change (fold_left step es (step st e)) with (run (step st e) es).
    eapply tleb_trans; [apply (step_cursor st e D); exact Q | now apply IH].
Qed.

(** C6 (as the code has it).  With non-negative durations, every step that
    does not run the interruption lines leaves [nextStartTime] where it was
    or moves it forward, so it never decreases along a run without
    interruption, however the handlers interleave; a step that runs the
    interruption lines sets it to zero.  [startSession], [stopSession],
    transport error and transport close leave it as it was. *)
Theorem cursor_monotone_reset_on_interruption (st : State T) :
  (forall e, nonneg_event e -> runs_interruption st e = true ->
             nextStartTimeRef (step st e) = tzero) /\
  (forall e, nonneg_event e -> runs_interruption st e = false ->
             tleb (nextStartTimeRef st) (nextStartTimeRef (step st e)) = true) /\
  (forall es, uninterrupted st es ->
              tleb (nextStartTimeRef st) (nextStartTimeRef (run st es)) = true) /\
  (forall e, In e (CallStartSession :: exit_events) ->
             nextStartTimeRef (step st e) = nextStartTimeRef st).
Proof.
  split; [| split; [| split]].
  - intros e D. apply (step_cursor st e D).
  - intros e D. apply (step_cursor st e D).
  - intros es. apply run_cursor.
  - intros e M. cbn in M.
    destruct M as [<- | [<- | [<- | [<- | []]]]]; reflexivity.
Qed.

End Cursor.

Section Transcripts.

Context {T : Type} {time_ops : TimeOps T}.

Lemma step_lifecycle_transcripts (st : State T) (e : Event T) :
  lifecycle_event e = true ->
  transcripts (step st e) = transcripts st.
Proof.
  destruct e as [| | k g | k c | s | m now | k d | | | h]; cbn [step lifecycle_event];
    intros L; try discriminate; try reflexivity.
  - destruct (nth_error (pending st) k) as [[i o | s | m o] |]; try reflexivity.
    destruct g; reflexivity.
  - destruct (nth_error (pending st) k) as [[i o | s | m o] |]; try reflexivity.
    destruct c; reflexivity.
  - unfold onopen.
    destruct (lookup_callbacks s (callbacks st)) as [[i str] |]; reflexivity.
Qed.

Lemma run_lifecycle_transcripts (es : list (Event T)) (st : State T) :
  forallb lifecycle_event es = true ->
  transcripts (run st es) = transcripts st.
Proof.
  revert st. induction es as [| e es IH]; intros st F; [reflexivity |].
  cbn in F. apply andb_prop in F. destruct F as (Fe & Fr).
  cbn [run fold_left]. change (fold_left step es (step st e)) with (run (step st e) es).
  now rewrite IH, step_lifecycle_transcripts.
Qed.

Lemma transcripts_onmessage_tail (m : LiveServerMessage) (st : State T) :
  transcripts (onmessage_tail m st)
  = transcripts st ++ output_entry m ++ input_entry m.
Proof.
  unfold onmessage_tail, handle_transcripts, handle_interruption.
  destruct (is_interrupted m); cbn; now rewrite <- app_assoc.
Qed.

(** C10.  [startSession] sets the reported error to null and leaves the
    transcript log and [isActive] as they were; so does the rest of bringing
    a session up (microphone settlement, connection settlement, open), and
    so does every event other than a message.  The transcript entries of a
    message handled in the new session are appended to the log the previous
    session left. *)
Theorem startSession_keeps_transcripts
    (st : State T) (k1 k2 s : nat) (granted connected : bool) :
  let st1 := step st CallStartSession in
  let st2 := run st [CallStartSession; GetUserMediaSettled k1 granted;
                     SessionPromiseSettled k2 connected; OnOpen s] in
  error st1 = None /\
  transcripts st1 = transcripts st /\
  isActive st1 = isActive st /\
  transcripts st2 = transcripts st /\
  (forall es, forallb lifecycle_event es = true ->
              transcripts (run st es) = transcripts st) /\
  (forall m now decoded,
      completes m decoded st2 = true ->
      transcripts (deliver st2 m now decoded)
      = transcripts st ++ output_entry m ++ input_entry m).
Proof.
  cbv zeta.
  assert (E : transcripts (run st [CallStartSession; GetUserMediaSettled k1 granted;
                                   SessionPromiseSettled k2 connected; OnOpen s])
              = transcripts st)
    by (apply run_lifecycle_transcripts; reflexivity).
  repeat split; try exact E.
  - intros es. apply run_lifecycle_transcripts.
  - intros m now decoded K.
    set (st2 := run st _) in *.
    rewrite deliver_atomic. unfold completes in K. unfold onmessage.
    destruct (base64Audio m) as [b64 | b64]; [| discriminate].
    change (audio_branch b64 (setNextStartTime (tmax (nextStartTimeRef st2) now) st2))
      with (audio_branch b64 st2).
    destruct (audio_branch b64 st2) as [ctxs |].
    + destruct decoded as [buf |]; [| discriminate].
      cbn [completed]. rewrite transcripts_onmessage_tail.
      change (transcripts
                (schedule_chunk (output ctxs) buf
                   (setNextStartTime (tmax (nextStartTimeRef st2) now) st2)))
        with (transcripts st2).
      now rewrite E.
    + cbn [completed]. rewrite transcripts_onmessage_tail. now rewrite E.
Qed.

End Transcripts.

(** ** Concrete runs: the properties at work, and where the code departs
       from what was expected of it *)

Lemma plain_chunk_arrival (clock d : Z) :
  0 <= d -> plain_chunk (Run.arrival clock d).
Proof.
  intros D. repeat split. cbn. now apply Z.leb_le.
Qed.

(** Two chunks of 500 ms: the first arrives at clock 0 and starts at 0, the
    second arrives at clock 100 and starts at 500. *)
Lemma schedule_without_interruption_witness :
  (audioContextRef Run.active = Some Run.ctxs /\
   Forall plain_chunk Run.two_chunks) /\
  (map snd (starts (log (deliver_all Run.active Run.two_chunks)))
   = map snd (starts (log Run.active))
     ++ spec_starts (nextStartTimeRef Run.active) Run.two_chunks /\
   nextStartTimeRef (deliver_all Run.active Run.two_chunks)
   = spec_cursor (nextStartTimeRef Run.active) Run.two_chunks /\
   no_overlap (combine (spec_starts (nextStartTimeRef Run.active) Run.two_chunks)
                       (durations Run.two_chunks)) /\
   nondecreasing (spec_starts (nextStartTimeRef Run.active) Run.two_chunks)) /\
  spec_starts (nextStartTimeRef Run.active) Run.two_chunks = [0; 500].
Proof.
  assert (C : audioContextRef Run.active = Some Run.ctxs) by reflexivity.
  assert (F : Forall plain_chunk Run.two_chunks)
    by (repeat constructor; apply plain_chunk_arrival; lia).
  split; [split; [exact C | exact F] |].
  split; [| reflexivity].
  exact (schedule_without_interruption Run.active Run.ctxs Run.two_chunks C F).
Defined.



(** A message with both a chunk and the interruption flag, while source 4
    plays: source 5 is created, started at 500 and stopped with source 4. *)
Lemma interrupted_message_leaves_nothing_in_flight_witness :
  is_interrupted (chunk_and_interruption_message "AAAA") = true /\
  is_normal (onmessage (chunk_and_interruption_message "AAAA") 100
               (Some (Run.buffer 500)) Run.played) = true /\
  sourcesRef Run.barged = [] /\
  nextStartTimeRef Run.barged = 0 /\
  starts (log Run.barged) = [(4%nat, 0); (5%nat, 500)] /\
  stops (log Run.barged) = [4%nat; 5%nat].
Proof.
  assert (I : is_interrupted (chunk_and_interruption_message "AAAA") = true)
    by reflexivity.
  assert (E : onmessage (chunk_and_interruption_message "AAAA") 100
                (Some (Run.buffer 500)) Run.played
              = Normal Run.barged)
    by (vm_compute; reflexivity).
  destruct (interrupted_message_leaves_nothing_in_flight Run.played
              (chunk_and_interruption_message "AAAA") 100 (Some (Run.buffer 500)) I)
    as (N & H & _).
  split; [exact I |].
  split; [rewrite N; vm_compute; reflexivity |].
  destruct (H Run.barged E) as (_ & S & Z).
  split; [exact S |]. split; [exact Z |].
  split; vm_compute; reflexivity.
Defined.

(** C3 as stated fails: in an active session a further [startSession] adds
    two contexts and a microphone request, replaces the stored pair of
    contexts, and on a grant opens a second transport session. *)
Lemma startSession_while_active_acquires :
  isActive Run.active = true /\
  ~ rejected_without_effects Run.active (step Run.active CallStartSession) /\
  acquisitions (log Run.started_twice)
  = [NewAudioContext 0 16000; NewAudioContext 1 24000; GetUserMedia; LiveConnect 3;
     NewAudioContext 4 16000; NewAudioContext 5 24000; GetUserMedia; LiveConnect 7] /\
  audioContextRef Run.started_twice = Some {| input := 4; output := 5 |}.
Proof.
  split; [reflexivity |]. split; [| split; vm_compute; reflexivity].
  intros (A & _). vm_compute in A. discriminate A.
Qed.

(** C4 as stated fails: a chunk that arrives after [stopSession] is started
    on the output context, joins the in-flight set and moves the cursor. *)
Lemma chunk_after_stop_is_scheduled :
  isActive Run.stopped = false /\
  ~ chunk_dropped Run.stopped Run.late /\
  starts (log Run.stopped) = [] /\
  starts (log Run.late) = [(4%nat, 0)] /\
  sourcesRef Run.late = [4%nat] /\
  nextStartTimeRef Run.late = 500.
Proof.
  split; [reflexivity |]. split; [| repeat split].
  intros (A & _). vm_compute in A. discriminate A.
Qed.

Lemma chunk_after_stop_is_handled_as_before_witness :
  (audioContextRef Run.active = Some Run.ctxs /\
   is_chunk (chunk_message "AAAA") = true /\
   is_interrupted (chunk_message "AAAA") = false) /\
  Run.late = stopSession Run.played /\
  starts (log Run.late) = starts (log Run.active) ++ [(4%nat, 0)] /\
  sourcesRef Run.late = [4%nat] /\
  nextStartTimeRef Run.late = 500.
Proof.
  assert (C : audioContextRef Run.active = Some Run.ctxs) by reflexivity.
  assert (K : is_chunk (chunk_message "AAAA") = true) by reflexivity.
  assert (I : is_interrupted (chunk_message "AAAA") = false) by reflexivity.
  destruct (chunk_after_stop_is_handled_as_before Run.active (chunk_message "AAAA") 0
              (Some (Run.buffer 500))) as (E & _ & H).
  destruct (H Run.ctxs (Run.buffer 500) C K I eq_refl) as (S & Q & N).
  split; [repeat split; assumption |].
  split; [exact E |]. split; [exact S |]. split; [exact Q | exact N].
Defined.

(** C5 as stated fails: after each exit of the active session neither
    context has been closed and the microphone stream has not been stopped. *)
Lemma exit_paths_leave_resources_open :
  acquisitions (log Run.active)
  = [NewAudioContext 0 16000; NewAudioContext 1 24000; GetUserMedia; LiveConnect 3] /\
  ~ released_exactly_once (log (step Run.active CallStopSession)) Run.ctxs 2 /\
  ~ released_exactly_once (log (step Run.active OnError)) Run.ctxs 2 /\
  ~ released_exactly_once (log (step Run.active OnClose)) Run.ctxs 2.
Proof.
  split; [reflexivity |].
  repeat split; intros (A & _); vm_compute in A; discriminate A.
Qed.

Lemma exits_release_nothing_witness :
  In CallStopSession (@exit_events Z) /\
  isActive (step Run.active CallStopSession) = false /\
  releases (log (step Run.active CallStopSession)) = [] /\
  audioContextRef (step Run.active CallStopSession) = Some Run.ctxs.
Proof.
  assert (M : In CallStopSession (@exit_events Z)) by (left; reflexivity).
  destruct (exits_release_nothing Run.active) as (H & _).
  destruct (H CallStopSession M) as (A & R & C & _).
  split; [exact M |]. split; [exact A |].
  split; [rewrite R; reflexivity | rewrite C; reflexivity].
Defined.

(** C6 as stated fails: the cursor at 500 stays at 500 through
    [stopSession] and through a transport close, and is still 500 when a new
    session is up, whose first chunk, arriving at clock 0 of a new output
    context, is started at 500. *)
Lemma cursor_survives_session_end :
  nextStartTimeRef Run.played = 500 /\
  nextStartTimeRef (step Run.played CallStopSession) <> tzero /\
  nextStartTimeRef (step Run.played OnClose) <> tzero /\
  isActive Run.restarted = true /\
  audioContextRef Run.restarted = Some {| input := 5; output := 6 |} /\
  nextStartTimeRef Run.restarted = 500 /\
  starts (log (deliver Run.restarted (chunk_message "AAAA") 0 (Some (Run.buffer 500))))
  = [(4%nat, 0); (9%nat, 500)].
Proof.
  split; [reflexivity |].
  split; [vm_compute; discriminate |].
  split; [vm_compute; discriminate |].
  repeat split.
Qed.

Lemma cursor_monotone_reset_on_interruption_witness :
  (nonneg_event (DecodeAudioDataSettled 0 (Some (Run.buffer 500))) /\
   runs_interruption Run.awaiting (DecodeAudioDataSettled 0 (Some (Run.buffer 500)))
   = false) /\
  tleb (nextStartTimeRef Run.awaiting)
       (nextStartTimeRef
          (step Run.awaiting (DecodeAudioDataSettled 0 (Some (Run.buffer 500))))) = true /\
  nextStartTimeRef (step Run.played (OnMessage interruption_message 100)) = 0 /\
  nextStartTimeRef (step Run.played CallStopSession) = 500.
Proof.
  assert (D : nonneg_event (DecodeAudioDataSettled 0 (Some (Run.buffer 500))))
    by reflexivity.
  assert (Q : runs_interruption Run.awaiting
                (DecodeAudioDataSettled 0 (Some (Run.buffer 500))) = false)
    by reflexivity.
  destruct (cursor_monotone_reset_on_interruption Run.awaiting) as (_ & H & _).
  destruct (cursor_monotone_reset_on_interruption Run.played) as (Z & _ & _ & K).
  split; [split; [exact D | exact Q] |].
  split; [exact (H _ D Q) |].
  split; [exact (Z (OnMessage interruption_message 100) I eq_refl) |].
  rewrite (K CallStopSession); [reflexivity | right; left; reflexivity].
Defined.

Lemma stopSession_idempotent_witness :
  isActive Run.stopped = false /\
  step Run.stopped CallStopSession = Run.stopped /\
  run Run.active [CallStopSession; CallStopSession] = Run.stopped.
Proof.
  destruct (stopSession_idempotent Run.stopped) as (_ & _ & _ & _ & _ & H).
  destruct (stopSession_idempotent Run.active) as (_ & E & _).
  split; [reflexivity |].
  split; [exact (H eq_refl) | exact E].
Defined.

(** A first session left one transcript entry; a second session is brought
    up and receives another: the log holds both. *)
Lemma startSession_keeps_transcripts_witness :
  transcripts Run.talked = ["AI: hello"%string] /\
  completes (output_transcript_message "again") None Run.talked_again = true /\
  isActive Run.talked_again = true /\
  transcripts (deliver Run.talked_again (output_transcript_message "again") 0 None)
  = ["AI: hello"; "AI: again"]%string.
Proof.
  destruct (startSession_keeps_transcripts Run.talked 0 0 7 true true)
    as (_ & _ & _ & _ & _ & H).
  split; [reflexivity |]. split; [reflexivity |]. split; [reflexivity |].
  exact (H (output_transcript_message "again") 0 None eq_refl).
Defined.

(** * Further properties of the hook *)

Section Bookkeeping.

Context {T : Type} {time_ops : TimeOps T}.

Lemma started_app (l1 l2 : list (Effect T)) :
  started (l1 ++ l2) = started l1 ++ started l2.
Proof. unfold started. now rewrite starts_app, map_app. Qed.

Lemma playback_tail (m : LiveServerMessage) (st : State T) :
  (is_interrupted m = false /\
   log (onmessage_tail m st) = log st /\
   sourcesRef (onmessage_tail m st) = sourcesRef st /\
   nextId (onmessage_tail m st) = nextId st) \/
  (is_interrupted m = true /\
   log (onmessage_tail m st) = log st ++ map SourceStop (sourcesRef st) /\
   sourcesRef (onmessage_tail m st) = [] /\
   nextId (onmessage_tail m st) = nextId st).
Proof.
  unfold onmessage_tail, handle_interruption.
  destruct (is_interrupted m); [right | left]; repeat split.
Qed.

(** Every step changes the playback bookkeeping in one of five ways. *)
Lemma step_playback (st : State T) (e : Event T) :
  PlaybackChange st (step st e).
Proof.
  destruct e as [| | k g | k c | s | m now | k d | | | h]; cbn [step].
  - apply PlaybackKept; cbn -[starts stops];
      rewrite ?starts_app, ?stops_app; cbn; rewrite ?app_nil_r; auto with arith.
  - apply PlaybackKept; reflexivity.
  - destruct (nth_error (pending st) k) as [[i o | s | m o] |];
      try (apply PlaybackKept; reflexivity).
    destruct g; apply PlaybackKept; cbn -[starts stops];
      rewrite ?starts_app, ?stops_app; cbn; rewrite ?app_nil_r; auto with arith.
  - destruct (nth_error (pending st) k) as [[i o | s | m o] |];
      try (apply PlaybackKept; reflexivity).
    destruct c; apply PlaybackKept; cbn -[starts stops];
      rewrite ?starts_app, ?stops_app; cbn; rewrite ?app_nil_r; auto with arith.
  - unfold onopen. destruct (lookup_callbacks s (callbacks st)) as [[i str] |];
      apply PlaybackKept; cbn -[starts stops];
      rewrite ?starts_app, ?stops_app; cbn; rewrite ?app_nil_r; auto with arith.
  - unfold onmessage_enter.
    destruct (base64Audio m) as [b64 | b64]; [| apply PlaybackKept; reflexivity].
    destruct (audio_branch b64 st); [apply PlaybackKept; reflexivity |].
    destruct (playback_tail m st) as [(_ & L & S & N) | (_ & L & S & N)].
    + apply PlaybackKept; rewrite ?L, ?S, ?N; auto.
    + apply PlaybackFlushed; rewrite ?L, ?S, ?N; auto.
      * now rewrite starts_app, starts_map_SourceStop, app_nil_r.
      * now rewrite stops_app, stops_map_SourceStop.
  - destruct (nth_error (pending st) k) as [[i o | s | m o] |];
      try (apply PlaybackKept; reflexivity).
    destruct d as [buf |]; [| apply PlaybackKept; reflexivity].
    unfold onmessage_resume.
    set (st1 := schedule_chunk o buf (resume k st)).
    assert (L1 : log st1 = log st ++ [CreateBufferSource o (nextId st);
                                      SourceStart (nextId st) (nextStartTimeRef st)])
      by (cbn; now rewrite <- app_assoc).
    assert (S1 : sourcesRef st1 = set_add (nextId st) (sourcesRef st)) by reflexivity.
    assert (N1 : nextId st1 = S (nextId st)) by (cbn; apply Nat.add_1_r).
    destruct (playback_tail m st1) as [(_ & L & S & N) | (_ & L & S & N)].
    + apply (PlaybackScheduled _ _ (nextStartTimeRef st)); rewrite ?L, ?S, ?N; auto.
      * now rewrite L1, starts_app.
      * rewrite L1, stops_app. cbn. now rewrite app_nil_r.
    + apply (PlaybackScheduledAndFlushed _ _ (nextStartTimeRef st));
        rewrite ?L, ?S, ?N; auto.
      * rewrite L1, !starts_app, starts_map_SourceStop. cbn. now rewrite app_nil_r.
      * rewrite L1, !stops_app, stops_map_SourceStop, S1. cbn [stops].
        now rewrite app_nil_r.
  - apply PlaybackKept; cbn -[starts stops];
      rewrite ?starts_app, ?stops_app; cbn; rewrite ?app_nil_r; auto with arith.
  - apply PlaybackKept; reflexivity.
  - apply (PlaybackEnded _ _ h); reflexivity.
Qed.

Lemma set_add_In (h x : nat) (s : list nat) :
  In x (set_add h s) <-> x = h \/ In x s.
Proof.
  split.
  - unfold set_add. destruct (existsb (Nat.eqb h) s); [now right |].
    intros M. apply in_app_or in M. destruct M as [M | [M | []]]; auto.
  - intros [-> | M]; [apply set_add_has | now apply set_add_keeps].
Qed.

Lemma set_add_NoDup (h : nat) (s : list nat) :
  NoDup s -> NoDup (set_add h s).
Proof.
  intros N. unfold set_add. destruct (existsb (Nat.eqb h) s) eqn:E; [exact N |].
  apply NoDup_app; [exact N | repeat constructor; intros [] |].
  intros a M [<- | []].
  assert (X : existsb (Nat.eqb h) s = true)
    by (apply existsb_exists; exists h; split; [exact M | apply Nat.eqb_refl]).
  congruence.
Qed.

Lemma set_delete_In (h x : nat) (s : list nat) :
  In x (set_delete h s) <-> In x s /\ x <> h.
Proof.
  unfold set_delete. rewrite filter_In. split; intros (M & Q); split; try exact M.
  - intros ->. now rewrite Nat.eqb_refl in Q.
  - apply Bool.negb_true_iff. now apply Nat.eqb_neq.
Qed.

Lemma consistent_change (st st' : State T) :
  PlaybackChange st st' -> Consistent st -> Consistent st'.
Proof.
  intros C [IB SB IN SN PN IS IU PS]. unfold started in *.
  assert (F : ~ In (nextId st) (map fst (starts (log st))))
    by (intros M; apply SB in M; exact (Nat.lt_irrefl _ M)).
  destruct C as [L P S N | h L P S N | L P S N | t L P S N | t L P S N];
    constructor; unfold started; rewrite ?L, ?P, ?S, ?N, ?map_app; cbn [map fst].
  (* kept *)
  - intros x M. eapply Nat.lt_le_trans; [now apply IB | exact N].
  - intros x M. eapply Nat.lt_le_trans; [now apply SB | exact N].
  - exact IN.
  - exact SN.
  - exact PN.
  - exact IS.
  - exact IU.
  - exact PS.
  (* ended *)
  - intros x M. apply set_delete_In in M. now apply IB.
  - exact SB.
  - now apply NoDup_filter.
  - exact SN.
  - exact PN.
  - intros x M. apply set_delete_In in M. now apply IS.
  - intros x M. apply set_delete_In in M. now apply IU.
  - exact PS.
  (* flushed *)
  - intros x [].
  - exact SB.
  - constructor.
  - exact SN.
  - apply NoDup_app; auto. intros a Ma Mb. exact (IU a Mb Ma).
  - intros x [].
  - intros x [].
  - intros x M. apply in_app_or in M. destruct M; auto.
  (* scheduled *)
  - intros x M. apply set_add_In in M.
    destruct M as [-> | M]; [apply Nat.lt_succ_diag_r | apply Nat.lt_lt_succ_r; auto].
  - intros x M. apply in_app_or in M.
    destruct M as [M | [<- | []]]; [apply Nat.lt_lt_succ_r; auto | apply Nat.lt_succ_diag_r].
  - now apply set_add_NoDup.
  - apply NoDup_app; auto; [repeat constructor; intros [] |].
    intros a M [<- | []]. exact (F M).
  - exact PN.
  - intros x M. apply set_add_In in M. apply in_or_app.
    destruct M as [-> | M]; [right; now left | left; auto].
  - intros x M Q. apply set_add_In in M. destruct M as [-> | M].
    + exact (F (PS _ Q)).
    + exact (IU x M Q).
  - intros x M. apply in_or_app. left. auto.
  (* scheduled and flushed *)
  - intros x [].
  - intros x M. apply in_app_or in M.
    destruct M as [M | [<- | []]]; [apply Nat.lt_lt_succ_r; auto | apply Nat.lt_succ_diag_r].
  - constructor.
  - apply NoDup_app; auto; [repeat constructor; intros [] |].
    intros a M [<- | []]. exact (F M).
  - apply NoDup_app; auto; [now apply set_add_NoDup |].
    intros a Ma Mb. apply set_add_In in Mb. destruct Mb as [-> | Mb].
    + exact (F (PS _ Ma)).
    + exact (IU a Mb Ma).
  - intros x [].
  - intros x [].
  - intros x M. apply in_or_app. apply in_app_or in M.
    destruct M as [M | M]; [left; auto |].
    apply set_add_In in M. destruct M as [-> | M]; [right; now left | left; auto].
Qed.

Lemma consistent_initial : Consistent (@initial T _).
Proof.
  constructor; cbn; try (intros h []); try constructor.
Qed.

Lemma consistent_run (es : list (Event T)) (st : State T) :
  Consistent st -> Consistent (run st es).
Proof.
  revert st. induction es as [| e es IH]; intros st C; [exact C |].
  cbn [run fold_left]. change (fold_left step es (step st e)) with (run (step st e) es).
  apply IH. exact (consistent_change st _ (step_playback st e) C).
Qed.

(** X1.  In every run of the hook from its initial state the in-flight set
    holds no source twice, and a source in it has been started and has not
    been stopped. *)
Theorem in_flight_sources_are_playing (es : list (Event T)) :
  NoDup (sourcesRef (run initial es)) /\
  (forall h, In h (sourcesRef (run initial es)) ->
             In h (started (log (run initial es))) /\
             ~ In h (stops (log (run initial es)))).
Proof.
  destruct (consistent_run es initial consistent_initial) as [_ _ IN _ _ IS IU _].
  split; [exact IN |]. intros h M. split; auto.
Qed.

(** X2.  In every run of the hook from its initial state no source is
    started twice, none is stopped twice, and only started sources are
    stopped. *)
Theorem sources_start_and_stop_once (es : list (Event T)) :
  NoDup (started (log (run initial es))) /\
  NoDup (stops (log (run initial es))) /\
  incl (stops (log (run initial es))) (started (log (run initial es))).
Proof.
  destruct (consistent_run es initial consistent_initial) as [_ _ _ SN PN _ _ PS].
  repeat split; assumption.
Qed.

End Bookkeeping.

Section Messages.

Context {T : Type} {time_ops : TimeOps T}.

(** X3.  A chunk whose decoding fails, with contexts stored: the handler
    throws after line 66, so the cursor has moved to [max(cursor, now)] and
    nothing else of the message is handled: no source is created, and the
    message's interruption flag and transcriptions are lost with it. *)
Theorem failed_decode_drops_message
    (st : State T) (ctxs : AudioContexts) (m : LiveServerMessage) (now : T) :
  audioContextRef st = Some ctxs ->
  is_chunk m = true ->
  let st' := deliver st m now None in
  is_normal (onmessage m now None st) = false /\
  nextStartTimeRef st' = tmax (nextStartTimeRef st) now /\
  transcripts st' = transcripts st /\
  sourcesRef st' = sourcesRef st /\
  log st' = log st /\
  pending st' = pending st.
Proof.
  intros C K st'. subst st'. rewrite deliver_atomic.
  unfold onmessage, is_chunk in *.
  destruct (base64Audio m) as [b64 | b64]; [| discriminate].
  unfold audio_branch. rewrite K, C. repeat split.
Qed.

(** X4.  A chunk that is still being decoded when an interruption is
    handled is not cancelled by it: when its decoding settles the chunk is
    started at the cursor the interruption has reset to zero, and it is the
    one source in flight.  The interruption stops the sources that were in
    flight before, not this one. *)
Theorem chunk_decoded_after_interruption_plays
    (st : State T) (ctxs : AudioContexts) (m mI : LiveServerMessage)
    (b : option string) (now1 now2 : T) (buf : AudioBuffer T) :
  audioContextRef st = Some ctxs ->
  is_chunk m = true ->
  is_interrupted m = false ->
  base64Audio mI = Normal b ->
  truthy_string b = false ->
  is_interrupted mI = true ->
  let st' := run st [OnMessage m now1; OnMessage mI now2;
                     DecodeAudioDataSettled (List.length (pending st)) (Some buf)] in
  starts (log st') = starts (log st) ++ [(nextId st, tzero)] /\
  stops (log st') = stops (log st) ++ sourcesRef st /\
  sourcesRef st' = [nextId st] /\
  nextStartTimeRef st' = tadd tzero (duration buf).
Proof.
  intros C K I B F II st'.
  set (task := AwaitDecodeAudioData m (output ctxs)).
  set (st1 := suspend task (setNextStartTime (tmax (nextStartTimeRef st) now1) st)).
  set (st2 := onmessage_tail mI st1).
  assert (E1 : step st (OnMessage m now1) = st1).
  { cbn [step]. unfold onmessage_enter, is_chunk in *.
    destruct (base64Audio m) as [b64 | b64]; [| discriminate].
    unfold audio_branch. now rewrite K, C. }
  assert (E2 : step st1 (OnMessage mI now2) = st2).
  { cbn [step]. unfold onmessage_enter. rewrite B. unfold audio_branch. now rewrite F. }
  assert (P2 : pending st2 = pending st ++ [task])
    by (unfold st2; rewrite pending_onmessage_tail; reflexivity).
  assert (E : st' = onmessage_tail m
                      (schedule_chunk (output ctxs) buf
                         (resume (List.length (pending st)) st2))).
  { subst st'. unfold run. cbn [fold_left]. rewrite E1, E2.
    cbn [step]. rewrite P2, nth_error_last. reflexivity. }
  rewrite E. clear E st'.
  destruct (onmessage_tail_interrupted mI st1 II) as (S2 & N2 & L2 & _ & X2).
  fold st2 in S2, N2, L2, X2.
  destruct (onmessage_tail_plain m (schedule_chunk (output ctxs) buf
                                      (resume (List.length (pending st)) st2)) I)
    as (L3 & S3 & N3).
  rewrite L3, S3, N3. clearbody st2. cbn -[starts stops].
  rewrite S2, N2, L2, X2.
  change (sourcesRef st1) with (sourcesRef st).
  change (nextId st1) with (nextId st).
  change (log st1) with (log st).
  rewrite <- !app_assoc, !starts_app, !stops_app, starts_map_SourceStop,
    stops_map_SourceStop.
  cbn. rewrite app_nil_r. repeat split.
Qed.

(** X5.  A source whose playback has ended leaves the in-flight set and
    nothing else changes; an interruption handled afterwards stops the
    sources still in flight and makes no call on the ended one. *)
Theorem ended_source_is_not_stopped (st : State T) (h : nat) :
  let st1 := step st (SourceEnded h) in
  ~ In h (sourcesRef st1) /\
  (forall x, x <> h -> (In x (sourcesRef st1) <-> In x (sourcesRef st))) /\
  nextStartTimeRef st1 = nextStartTimeRef st /\
  log st1 = log st /\
  (forall mI b now,
      base64Audio mI = Normal b ->
      truthy_string b = false ->
      is_interrupted mI = true ->
      stops (log (step st1 (OnMessage mI now)))
      = stops (log st) ++ set_delete h (sourcesRef st)).
Proof.
  cbn [step]. unfold onended.
  split; [| split; [| split; [| split]]]; try reflexivity.
  - cbn. intros M. apply set_delete_In in M. now destruct M.
  - cbn. intros x Q. rewrite set_delete_In. tauto.
  - intros mI b now B F II. unfold onmessage_enter. rewrite B.
    unfold audio_branch. rewrite F.
    destruct (onmessage_tail_interrupted mI
                (setSources (set_delete h (sourcesRef st)) st) II)
      as (_ & _ & L & _).
    rewrite L. cbn -[stops]. now rewrite stops_app, stops_map_SourceStop.
Qed.


End Messages.

Section Standing.

Context {T : Type} {time_ops : TimeOps T}.

Lemma startSession_then_settle (st : State T) (granted : bool) :
  run st [CallStartSession; GetUserMediaSettled (List.length (pending st)) granted]
  = startSession_afterGetUserMedia (nextId st) (S (nextId st)) granted
      (resume (List.length (pending st)) (startSession st)).
Proof.
  unfold run. cbn [fold_left].
  assert (P : nth_error (pending (startSession st)) (List.length (pending st))
              = Some (AwaitGetUserMedia (nextId st) (S (nextId st))))
    by (cbn; apply nth_error_last).
  change (step st CallStartSession) with (startSession st).
  cbn [step]. now rewrite P.
Qed.

(** X6.  When the microphone is denied, [startSession] reports "Could not
    initialize Live Session." and requests no transport session: no
    callbacks are registered, [isActive] and the session reference stay as
    they were, and the two contexts just created stay stored. *)
Theorem denied_microphone_reports_error (st : State T) :
  let st' := run st [CallStartSession;
                     GetUserMediaSettled (List.length (pending st)) false] in
  error st' = Some "Could not initialize Live Session."%string /\
  isActive st' = isActive st /\
  callbacks st' = callbacks st /\
  sessionRef st' = sessionRef st /\
  pending st' = pending st /\
  audioContextRef st' = Some {| input := nextId st; output := S (nextId st) |} /\
  acquisitions (log st')
  = acquisitions (log st)
    ++ [NewAudioContext (nextId st) 16000;
        NewAudioContext (S (nextId st)) 24000; GetUserMedia].
Proof.
  cbv zeta. rewrite startSession_then_settle.
  repeat split.
  - cbn. apply drop_task_last.
  - cbn -[acquisitions]. rewrite !acquisitions_app. cbn.
    now rewrite !app_nil_r, <- !app_assoc.
Qed.

(** X7.  When the transport connection fails after the microphone was
    granted, [startSession] reports the same error; the session reference
    and [isActive] stay as they were, while the callbacks registered for the
    failed session stay registered. *)
Theorem failed_connection_reports_error (st : State T) :
  let st' := run st [CallStartSession;
                     GetUserMediaSettled (List.length (pending st)) true;
                     SessionPromiseSettled (List.length (pending st)) false] in
  error st' = Some "Could not initialize Live Session."%string /\
  isActive st' = isActive st /\
  sessionRef st' = sessionRef st /\
  pending st' = pending st /\
  callbacks st'
  = callbacks st ++ [(S (nextId st + 2), (nextId st, (nextId st + 2)%nat))] /\
  acquisitions (log st')
  = acquisitions (log st)
    ++ [NewAudioContext (nextId st) 16000;
        NewAudioContext (S (nextId st)) 24000; GetUserMedia;
        LiveConnect (S (nextId st + 2))].
Proof.
  cbv zeta.
  change (run st [CallStartSession;
                  GetUserMediaSettled (List.length (pending st)) true;
                  SessionPromiseSettled (List.length (pending st)) false])
    with (step (run st [CallStartSession;
                        GetUserMediaSettled (List.length (pending st)) true])
               (SessionPromiseSettled (List.length (pending st)) false)).
  rewrite startSession_then_settle.
  set (st2 := startSession_afterGetUserMedia _ _ true _).
  assert (P : pending st2 = pending st ++ [AwaitSessionPromise (S (nextId st + 2))]).
  { cbn -[drop_task]. now rewrite drop_task_last. }
  cbn [step]. rewrite P, nth_error_last.
  unfold startSession_afterConnect, startSession_catch.
  repeat split.
  - cbn -[drop_task]. rewrite drop_task_last. apply drop_task_last.
  - cbn -[acquisitions]. rewrite !acquisitions_app. cbn.
    now rewrite !app_nil_r, <- !app_assoc.
Qed.

Lemma in_drop_task (k : nat) (p : list Task) (t : Task) :
  In t (drop_task k p) -> In t p.
Proof.
  unfold drop_task. intros M. apply in_app_or in M.
  destruct M as [M | M].
  - rewrite <- (firstn_skipn k p). apply in_or_app. now left.
  - rewrite <- (firstn_skipn (S k) p). apply in_or_app. now right.
Qed.

Lemma lookup_callbacks_In (s : nat) (l : list (nat * (nat * nat))) (c : nat * nat) :
  lookup_callbacks s l = Some c -> l <> [].
Proof. destruct l; [discriminate | discriminate]. Qed.

Lemma standing_tail (m : LiveServerMessage) (st : State T) :
  Standing st -> Standing (onmessage_tail m st).
Proof.
  intros [PA AC CC CA AH].
  unfold onmessage_tail, handle_transcripts, handle_interruption.
  destruct (is_interrupted m); constructor; cbn; auto.
  - intros i o M. apply in_or_app. left. eauto.
  - intros s c M. apply in_or_app. left. eauto.
  - intros s M. apply in_or_app. left. apply in_app_or in M.
    destruct M as [M | M]; [eauto |].
    apply in_map_iff in M. destruct M as (x & Q & _). discriminate Q.
  - intros M. apply AH. apply in_app_or in M.
    destruct M as [M | M]; [exact M |].
    apply in_map_iff in M. destruct M as (x & Q & _). discriminate Q.
Qed.

Lemma standing_step (st : State T) (e : Event T) :
  Standing st -> Standing (step st e).
Proof.
  intros St. pose proof St as [PA AC CC CA AH].
  destruct e as [| | k g | k c | s | m now | k d | | | h]; cbn [step].
  - constructor; cbn.
    + intros i o M. apply in_or_app. right. now left.
    + exact AC.
    + intros s c M. apply in_or_app. left. apply in_or_app. left.
      apply in_or_app. left. eauto.
    + intros s M. apply in_or_app. right. now left.
    + discriminate.
  - constructor; cbn; auto. discriminate.
  - destruct (nth_error (pending st) k) as [[i o | s | m o] |] eqn:N; try exact St.
    apply nth_error_In in N. pose proof (PA _ _ N) as G.
    destruct g; constructor; cbn.
    + intros i' o' M. apply in_or_app. left. apply in_app_or in M.
      destruct M as [M | [M | []]]; [| discriminate M].
      apply in_drop_task in M. eauto.
    + intros _ Q. now destruct (callbacks st).
    + intros s c M. apply in_app_or in M. apply in_or_app.
      destruct M as [M | [M | []]]; [left; eauto | right].
      injection M as <- _. now left.
    + intros s M. apply in_or_app. now left.
    + intros _. now apply AH.
    + intros i' o' M. apply in_or_app. left. apply in_drop_task in M. eauto.
    + exact AC.
    + intros s c M. apply in_or_app. left. eauto.
    + intros s M. apply in_or_app. now left.
    + intros _. now apply AH.
  - destruct (nth_error (pending st) k) as [[i o | s | m o] |] eqn:N; try exact St.
    destruct c; constructor; cbn; auto.
    + intros i' o' M. apply in_drop_task in M. eauto.
    + intros i' o' M. apply in_or_app. left. apply in_drop_task in M. eauto.
    + intros s' c M. apply in_or_app. left. eauto.
    + intros s' M. apply in_or_app. left.
      apply in_app_or in M. destruct M as [M | [M | []]]; [eauto | discriminate M].
    + intros M. apply AH. apply in_app_or in M.
      destruct M as [M | [M | []]]; [exact M | discriminate M].
  - unfold onopen.
    destruct (lookup_callbacks s (callbacks st)) as [[i str] |] eqn:L; [| exact St].
    constructor; cbn.
    + intros i' o' M. apply in_or_app. left. eauto.
    + intros _. exact (lookup_callbacks_In _ _ _ L).
    + intros s' c M. apply in_or_app. left. eauto.
    + intros s' M. apply in_or_app. left.
      apply in_app_or in M.
      destruct M as [M | [M | [M | []]]]; [eauto | discriminate M | discriminate M].
    + intros M. apply AH. apply in_app_or in M.
      destruct M as [M | [M | [M | []]]]; [exact M | discriminate M | discriminate M].
  - unfold onmessage_enter.
    destruct (base64Audio m) as [b64 | b64]; [| exact St].
    destruct (audio_branch b64 st) as [ctxs |]; [| now apply standing_tail].
    constructor; cbn; auto.
    intros i o M. apply in_app_or in M.
    destruct M as [M | [M | []]]; [eauto | discriminate M].
  - destruct (nth_error (pending st) k) as [[i o | s | m o] |] eqn:N; try exact St.
    destruct d as [buf |].
    + unfold onmessage_resume. apply standing_tail.
      constructor; cbn.
      * intros i' o' M. apply in_or_app. left. apply in_or_app. left.
        apply in_drop_task in M. eauto.
      * exact AC.
      * intros s c M. apply in_or_app. left. apply in_or_app. left. eauto.
      * intros s M. apply in_or_app. left. apply in_or_app. left.
        apply in_app_or in M.
        destruct M as [M | [M | []]]; [| discriminate M].
        apply in_app_or in M. destruct M as [M | [M | []]]; [eauto | discriminate M].
      * intros M. apply AH. apply in_app_or in M.
        destruct M as [M | [M | []]]; [| discriminate M].
        apply in_app_or in M. destruct M as [M | [M | []]]; [exact M | discriminate M].
    + unfold onmessage_resume. constructor; cbn; auto.
      intros i' o' M. apply in_drop_task in M. eauto.
  - constructor; cbn.
    + intros i o M. apply in_or_app. left. eauto.
    + discriminate.
    + intros s c M. apply in_or_app. left. eauto.
    + intros s M. apply in_or_app. left.
      apply in_app_or in M. destruct M as [M | [M | []]]; [eauto | discriminate M].
    + intros M. apply AH. apply in_app_or in M.
      destruct M as [M | [M | []]]; [exact M | discriminate M].
  - constructor; cbn; auto. discriminate.
  - constructor; cbn; auto.
Qed.

Lemma standing_initial : Standing (@initial T _).
Proof.
  constructor; cbn; try discriminate; try (intros; contradiction).
Qed.

Lemma standing_run (es : list (Event T)) (st : State T) :
  Standing st -> Standing (run st es).
Proof.
  revert st. induction es as [| e es IH]; intros st S; [exact S |].
  cbn [run fold_left]. change (fold_left step es (step st e)) with (run (step st e) es).
  apply IH. now apply standing_step.
Qed.

(** X8.  In every run of the hook from its initial state, a session is
    reported active only after the microphone was requested and a transport
    session requested for it, with callbacks registered and a pair of
    contexts stored. *)
Theorem active_session_was_connected (es : list (Event T)) :
  isActive (run initial es) = true ->
  In GetUserMedia (log (run initial es)) /\
  (exists s, In (LiveConnect s) (log (run initial es))) /\
  callbacks (run initial es) <> [] /\
  audioContextRef (run initial es) <> None.
Proof.
  intros A.
  destruct (standing_run es initial standing_initial) as [_ AC CC CA AH].
  specialize (AC A).
  destruct (callbacks (run initial es)) as [| [s c] r] eqn:E; [contradiction |].
  assert (L : In (LiveConnect s) (log (run initial es)))
    by (apply (CC s c); now left).
  pose proof (CA s L) as G.
  split; [exact G |]. split; [now exists s |]. split; [discriminate | now apply AH].
Qed.

Lemma tagged_output (m : LiveServerMessage) : Forall tagged_entry (output_entry m).
Proof.
  unfold output_entry. destruct (serverContent m) as [sc |]; [| constructor].
  destruct (outputTranscription sc) as [t |]; constructor; [| constructor].
  exists (text_or_undefined t). now left.
Qed.

Lemma tagged_input (m : LiveServerMessage) : Forall tagged_entry (input_entry m).
Proof.
  unfold input_entry. destruct (serverContent m) as [sc |]; [| constructor].
  destruct (inputTranscription sc) as [t |]; constructor; [| constructor].
  exists (text_or_undefined t). now right.
Qed.

Lemma step_transcripts (st : State T) (e : Event T) :
  exists added,
    transcripts (step st e) = transcripts st ++ added /\ Forall tagged_entry added.
Proof.
  assert (Q : forall m st0, transcripts st0 = transcripts st ->
              exists added, transcripts (onmessage_tail m st0) = transcripts st ++ added /\
                            Forall tagged_entry added).
  { intros m st0 E. exists (output_entry m ++ input_entry m).
    rewrite transcripts_onmessage_tail, E. split; [reflexivity |].
    apply Forall_app. split; [apply tagged_output | apply tagged_input]. }
  destruct (lifecycle_event e) eqn:L.
  - exists []. rewrite app_nil_r. split; [now apply step_lifecycle_transcripts | constructor].
  - destruct e as [| | k g | k c | s | m now | k d | | | h]; try discriminate; cbn [step].
    + unfold onmessage_enter.
      destruct (base64Audio m) as [b64 | b64];
        [| exists []; rewrite app_nil_r; split; [reflexivity | constructor]].
      destruct (audio_branch b64 st);
        [exists []; rewrite app_nil_r; split; [reflexivity | constructor] |].
      now apply Q.
    + destruct (nth_error (pending st) k) as [[i o | s | m o] |];
        try (exists []; rewrite app_nil_r; split; [reflexivity | constructor]).
      destruct d as [buf |];
        [| exists []; rewrite app_nil_r; split; [reflexivity | constructor]].
      unfold onmessage_resume. now apply Q.
Qed.

(** X9.  The transcript log only grows: after any run it is the log from
    before with entries appended, and every appended entry begins with the
    tag of its speaker, "AI: " or "You: ". *)
Theorem transcripts_only_grow (st : State T) (es : list (Event T)) :
  exists added,
    transcripts (run st es) = transcripts st ++ added /\ Forall tagged_entry added.
Proof.
  revert st. induction es as [| e es IH]; intros st.
  - exists []. rewrite app_nil_r. split; [reflexivity | constructor].
  - cbn [run fold_left]. change (fold_left step es (step st e)) with (run (step st e) es).
    destruct (IH (step st e)) as (a2 & E2 & F2).
    destruct (step_transcripts st e) as (a1 & E1 & F1).
    exists (a1 ++ a2). rewrite E2, E1, <- app_assoc. split; [reflexivity |].
    apply Forall_app. now split.
Qed.

End Standing.

(** ** The further properties on concrete runs *)

(** A message with a chunk, the interruption flag and two transcriptions,
    whose decoding fails while source 4 plays: source 4 stays in flight, the
    cursor stays at 500 and no transcript entry is added. *)
Lemma failed_decode_drops_message_witness :
  (audioContextRef Run.played = Some Run.ctxs /\
   is_chunk Scenario.loaded_message = true) /\
  is_interrupted Scenario.loaded_message = true /\
  output_entry Scenario.loaded_message = ["AI: hi"%string] /\
  input_entry Scenario.loaded_message = ["You: undefined"%string] /\
  nextStartTimeRef (deliver Run.played Scenario.loaded_message 100 None) = 500 /\
  transcripts (deliver Run.played Scenario.loaded_message 100 None) = [] /\
  sourcesRef (deliver Run.played Scenario.loaded_message 100 None) = [4%nat].
Proof.
  assert (C : audioContextRef Run.played = Some Run.ctxs) by reflexivity.
  assert (K : is_chunk Scenario.loaded_message = true) by reflexivity.
  destruct (failed_decode_drops_message Run.played Run.ctxs Scenario.loaded_message 100 C K)
    as (_ & N & Tr & S & _).
  split; [split; [exact C | exact K] |].
  split; [reflexivity |]. split; [reflexivity |]. split; [reflexivity |].
  split; [rewrite N; reflexivity |].
  split; [rewrite Tr; reflexivity | rewrite S; reflexivity].
Defined.

(** The second chunk arrives at clock 100 while source 4 plays, the
    interruption at clock 200 stops source 4, and the second chunk, decoded
    after that, is started as source 5 at time 0. *)
Lemma chunk_decoded_after_interruption_plays_witness :
  (audioContextRef Run.played = Some Run.ctxs /\
   is_chunk (chunk_message "AAAA") = true /\
   is_interrupted (chunk_message "AAAA") = false /\
   base64Audio interruption_message = Normal None /\
   truthy_string None = false /\
   is_interrupted interruption_message = true) /\
  starts (log Scenario.raced) = [(4%nat, 0); (5%nat, 0)] /\
  stops (log Scenario.raced) = [4%nat] /\
  sourcesRef Scenario.raced = [5%nat] /\
  nextStartTimeRef Scenario.raced = 500.
Proof.
  assert (C : audioContextRef Run.played = Some Run.ctxs) by reflexivity.
  assert (K : is_chunk (chunk_message "AAAA") = true) by reflexivity.
  assert (I : is_interrupted (chunk_message "AAAA") = false) by reflexivity.
  assert (B : base64Audio interruption_message = Normal None) by reflexivity.
  assert (F : truthy_string None = false) by reflexivity.
  assert (II : is_interrupted interruption_message = true) by reflexivity.
  pose proof (chunk_decoded_after_interruption_plays Run.played Run.ctxs
                (chunk_message "AAAA") interruption_message None 100 200
                (Run.buffer 500) C K I B F II) as H.
  split; [repeat split; assumption |].
  exact H.
Defined.

Lemma active_session_was_connected_witness :
  isActive (run (@initial Z _) Run.session_events) = true /\
  In GetUserMedia (log (run (@initial Z _) Run.session_events)) /\
  (exists s, In (LiveConnect s) (log (run (@initial Z _) Run.session_events))) /\
  callbacks (run (@initial Z _) Run.session_events) <> [] /\
  audioContextRef (run (@initial Z _) Run.session_events) <> None.
Proof.
  assert (A : isActive (run (@initial Z _) Run.session_events) = true) by reflexivity.
  split; [exact A |].
  exact (active_session_was_connected Run.session_events A).
Defined.


(** * Further properties of the PCM16 conversion *)

Lemma mul_pow52 (m : positive) :
  (m * 4503599627370496)%positive = Pos.iter xO m 52.
Proof. rewrite Pos.mul_comm. reflexivity. Qed.

Lemma digits_shift (m n : positive) :
  digits2_pos (Pos.iter xO m n) = (digits2_pos m + n)%positive.
Proof.
  induction n using Pos.peano_ind.
  - cbn. now rewrite Pos.add_1_r.
  - rewrite Pos.iter_succ. cbn [digits2_pos]. rewrite IHn. lia.
Qed.

Lemma iter_pos_iter {A : Type} (f : A -> A) (n : positive) (x : A) :
  iter_pos f n x = Pos.iter f x n.
Proof.
  revert x. induction n as [n IH | n IH |]; intros x; cbn.
  - rewrite !IH. now rewrite !Pos.iter_swap.
  - now rewrite !IH.
  - reflexivity.
Qed.

Lemma shr_iter_exact (n m : positive) :
  Pos.iter shr_1 {| shr_m := Zpos (Pos.iter xO m n); shr_r := false; shr_s := false |} n
  = {| shr_m := Zpos m; shr_r := false; shr_s := false |}.
Proof.
  induction n using Pos.peano_ind.
  - reflexivity.
  - rewrite Pos.iter_succ_r, Pos.iter_succ. exact IHn.
Qed.

(** The product before the final range check: the mantissa is kept and the
    exponent raised by 15. *)
Lemma scale_finite (s : bool) (m : positive) (e : Z) :
  digits2_pos m = 53%positive ->
  -1074 <= e ->
  Capture.scale (S754_finite s m e)
  = if e + 15 <=? 971 then S754_finite s m (e + 15) else S754_infinity s.
Proof.
  intros D R. unfold Capture.scale, Capture.c32768, SFmul.
  rewrite mul_pow52. unfold binary_round_aux.
  unfold shr_fexp at 1. unfold Zdigits2. rewrite digits_shift, D.
  unfold shr_record_of_loc.
  replace (fexp Capture.prec Capture.emax (Z.pos (53 + 52) + (e + -37)) - (e + -37))
    with 52 by (unfold fexp, emin, Capture.prec, Capture.emax; lia).
  unfold shr at 1. rewrite iter_pos_iter, shr_iter_exact.
  cbn [shr_m loc_of_shr_record round_nearest_even].
  unfold shr_fexp, Zdigits2. rewrite D.
  replace (fexp Capture.prec Capture.emax (Z.pos 53 + (e + -37 + 52)) - (e + -37 + 52))
    with 0 by (unfold fexp, emin, Capture.prec, Capture.emax; lia).
  cbn [shr shr_record_of_loc shr_m].
  replace (e + -37 + 52) with (e + 15) by lia.
  rewrite xorb_false_r. reflexivity.
Qed.

(** X11.  Scaling a normal binary64 sample by 32768 never rounds: the
    mantissa is unchanged and the exponent grows by 15, as long as the
    result stays in the binary64 range; beyond it the product is an
    infinity, which is stored as 0. *)
Theorem scaling_is_exact (s : bool) (m : positive) (e : Z) :
  digits2_pos m = 53%positive ->
  -1074 <= e ->
  (e <= 956 ->
   Capture.scale (S754_finite s m e) = S754_finite s m (e + 15) /\
   Capture.truncate (Capture.scale (S754_finite s m e))
   = (if s then -1 else 1) * Z.shiftl (Zpos m) (e + 15)) /\
  (956 < e ->
   Capture.scale (S754_finite s m e) = S754_infinity s /\
   Capture.pcm16 [S754_finite s m e] = [0; 0]).
Proof.
  intros D R. pose proof (scale_finite s m e D R) as E. split; intros B.
  - destruct (Z.leb_spec (e + 15) 971) as [L | L]; [| lia].
    rewrite E. split; [reflexivity |].
    cbn [Capture.truncate]. destruct s; lia.
  - destruct (Z.leb_spec (e + 15) 971) as [L | L]; [lia |].
    unfold Capture.pcm16, Capture.to_int16_array. cbn [map]. rewrite E.
    split; reflexivity.
Qed.

(** X12.  A sample whose scaled value, truncated, lies in the signed
    16-bit range is stored unchanged: nothing wraps, and its two bytes read
    back as that value. *)
Theorem in_range_sample_keeps_its_value (sample : spec_float) :
  -32768 <= Capture.truncate (Capture.scale sample) < 32768 ->
  Capture.ToInt16 (Capture.scale sample) = Capture.truncate (Capture.scale sample) /\
  exists lo hi,
    Capture.pcm16 [sample] = [lo; hi] /\
    Capture.int16_of_bytes lo hi = Capture.truncate (Capture.scale sample).
Proof.
  intros R.
  assert (E : Capture.ToInt16 (Capture.scale sample)
              = Capture.truncate (Capture.scale sample)).
  { unfold Capture.ToInt16.
    set (t := Capture.truncate (Capture.scale sample)) in *.
    destruct (Z_lt_le_dec t 0) as [N | N].
    - assert (M : t mod 65536 = t + 65536)
        by (symmetry; apply (Z.mod_unique t 65536 (-1)); lia).
      rewrite M. destruct (Z.leb_spec 32768 (t + 65536)); lia.
    - rewrite Z.mod_small by lia. destruct (Z.leb_spec 32768 t); lia. }
  split; [exact E |].
  destruct (int16_bytes_roundtrip _ (ToInt16_range (Capture.scale sample)))
    as (lo & hi & B & _ & _ & V).
  exists lo, hi. rewrite <- E. split; [| exact V].
  unfold Capture.pcm16, Capture.to_int16_array. cbn [map Capture.uint8_view flat_map].
  now rewrite B, app_nil_r.
Qed.

(** The sample 0.5 is [2^52 * 2^-53]; scaled it is 16384, stored as the
    bytes 0 and 64. *)
Lemma scaling_is_exact_witness :
  (digits2_pos 4503599627370496 = 53%positive /\ -1074 <= -53 /\ -53 <= 956) /\
  Capture.scale Capture.f_half = S754_finite false 4503599627370496 (-38) /\
  Capture.truncate (Capture.scale Capture.f_half) = 16384.
Proof.
  assert (D : digits2_pos 4503599627370496 = 53%positive) by reflexivity.
  assert (R : -1074 <= -53) by lia.
  assert (B : -53 <= 956) by lia.
  destruct (scaling_is_exact false 4503599627370496 (-53) D R) as (H & _).
  destruct (H B) as (E & V).
  split; [repeat split; assumption |].
  split; [exact E |]. unfold Capture.f_half. rewrite V. reflexivity.
Defined.

Lemma in_range_sample_keeps_its_value_witness :
  -32768 <= Capture.truncate (Capture.scale Capture.f_minus_one) < 32768 /\
  Capture.ToInt16 (Capture.scale Capture.f_minus_one) = -32768 /\
  Capture.pcm16 [Capture.f_minus_one] = [0; 128].
Proof.
  assert (R : -32768 <= Capture.truncate (Capture.scale Capture.f_minus_one) < 32768)
    by (split; [vm_compute; discriminate | vm_compute; reflexivity]).
  destruct (in_range_sample_keeps_its_value Capture.f_minus_one R) as (E & _).
  split; [exact R |]. split; [rewrite E; reflexivity | reflexivity].
Defined.

(** * Properties of the request service *)

Lemma length_append (a b : string) :
  String.length (a ++ b) = (String.length a + String.length b)%nat.
Proof. induction a as [| c a IH]; cbn; [reflexivity | now rewrite IH]. Qed.

Lemma append_assoc (a b c : string) :
  ((a ++ b) ++ c = a ++ (b ++ c))%string.
Proof. induction a as [| x a IH]; cbn; [reflexivity | now rewrite IH]. Qed.

Lemma append_nil_r (a : string) : (a ++ "")%string = a.
Proof. induction a as [| x a IH]; cbn; [reflexivity | now rewrite IH]. Qed.

Lemma slice0_prefix (n : nat) (s : string) :
  exists rest, s = (slice0 n s ++ rest)%string.
Proof.
  unfold slice0. revert s. induction n as [| n IH]; intros s.
  - exists s. destruct s; reflexivity.
  - destruct s as [| c s]; [exists EmptyString; reflexivity |].
    destruct (IH s) as (rest & E). exists rest. cbn. now rewrite <- E.
Qed.

Lemma slice0_length (n : nat) (s : string) :
  String.length (slice0 n s) = Nat.min n (String.length s).
Proof.
  unfold slice0. revert s. induction n as [| n IH]; intros s.
  - destruct s; reflexivity.
  - destruct s as [| c s]; [reflexivity |]. cbn. now rewrite IH.
Qed.

Lemma slice0_short (n : nat) (s : string) :
  (String.length s <= n)%nat -> slice0 n s = s.
Proof.
  unfold slice0. revert s. induction n as [| n IH]; intros s L.
  - destruct s; [reflexivity | cbn in L; lia].
  - destruct s as [| c s]; [reflexivity |]. cbn in *. rewrite IH; [reflexivity | lia].
Qed.

(** X13.  The request [chat] builds is coherent: the prompt is sent as it
    is; the thinking budget of 32768 goes with the pro model and no budget
    with the flash model; a tool configuration is only sent together with
    the maps tool; the [tools] key is absent exactly when neither search nor
    maps is asked for, and never holds an empty list; the system
    instruction is the role's instruction, followed by a context section
    only for a non-empty context. *)
Theorem chat_request_is_coherent
    (prompt : string) (options : GeminiService.ChatOptions) :
  let r := GeminiService.chat prompt options in
  let c := GeminiService.config r in
  GeminiService.contents r = prompt /\
  ((GeminiService.model r = "gemini-3-pro-preview"%string /\
    GeminiService.thinkingConfig c = Some 32768) \/
   (GeminiService.model r = "gemini-3-flash-preview"%string /\
    GeminiService.thinkingConfig c = None)) /\
  (forall l, GeminiService.toolConfig c = Some l ->
     exists ts, GeminiService.tools c = Some ts /\ In GeminiService.googleMaps ts) /\
  GeminiService.tools c <> Some [] /\
  (GeminiService.tools c = None <->
   truthy_bool (GeminiService.useSearch options) = false /\
   truthy_bool (GeminiService.useMaps options) = false) /\
  (forall ts, GeminiService.tools c = Some ts -> NoDup ts) /\
  (exists section,
     GeminiService.systemInstruction c
     = (GeminiService.getRoleInstruction
          (GeminiService.role_or_general (GeminiService.role options)) ++ section)%string /\
     (truthy_string (GeminiService.context options) = false -> section = ""%string)).
Proof.
  cbv zeta. unfold GeminiService.chat, GeminiService.chat_tools. cbn.
  split; [reflexivity |].
  split; [destruct (truthy_bool (GeminiService.thinking options)); [left | right];
          split; reflexivity |].
  split.
  { intros l E. destruct (truthy_bool (GeminiService.useMaps options)); [| discriminate].
    destruct (truthy_bool (GeminiService.useSearch options)); cbn;
      eexists; split; try reflexivity; cbn; auto. }
  split.
  { destruct (truthy_bool (GeminiService.useSearch options)),
             (truthy_bool (GeminiService.useMaps options)); cbn; discriminate. }
  split.
  { destruct (truthy_bool (GeminiService.useSearch options)),
             (truthy_bool (GeminiService.useMaps options)); cbn; split;
      try discriminate; try tauto; intros (A & B); discriminate. }
  split.
  { intros ts. destruct (truthy_bool (GeminiService.useSearch options)),
                        (truthy_bool (GeminiService.useMaps options)); cbn;
      intros E; try discriminate; injection E as <-; repeat constructor; cbn;
      try tauto.
    intros [Q | []]. discriminate Q. }
  unfold GeminiService.chat_instruction.
  eexists. split; [reflexivity |]. intros F. now rewrite F.
Qed.

Lemma slice0_app (n : nat) (head rest : string) :
  String.length head = n -> slice0 n (head ++ rest) = head.
Proof.
  unfold slice0. revert head. induction n as [| n IH]; intros head L.
  - destruct head; [| discriminate L]. cbn. destruct rest; reflexivity.
  - destruct head as [| c head]; [discriminate L |]. cbn in *.
    rewrite IH; [reflexivity | lia].
Qed.

(** X14.  [analyzeData] sends at most the first 10000 characters of the
    CSV (characters of this development: 8-bit ones).  The snippet is a
    prefix of the content, of length [min(10000, length)], the whole
    content when that has at most 10000 characters.  The prompt is the
    heading line, the snippet, an empty line and the query line, in this
    order, so it has 46 characters around the snippet and the query and
    ends with the query: it holds the whole content when that has at most
    10000 characters, and of a longer content its first 10000 characters
    and nothing of what follows them. *)
Theorem analyzeData_truncates_csv (csvContent query : string) :
  (exists rest, csvContent = (slice0 10000 csvContent ++ rest)%string) /\
  String.length (slice0 10000 csvContent) = Nat.min 10000 (String.length csvContent) /\
  ((String.length csvContent <= 10000)%nat -> slice0 10000 csvContent = csvContent) /\
  String.length (GeminiService.analyzeData_contents csvContent query)
  = (46 + Nat.min 10000 (String.length csvContent) + String.length query)%nat /\
  (exists before,
    GeminiService.analyzeData_contents csvContent query = (before ++ query)%string) /\
  GeminiService.analyzeData_contents csvContent query
  = (("Context: Here is a CSV data snippet:" ++ nl)
     ++ slice0 10000 csvContent ++ (nl ++ nl ++ "Query: " ++ query))%string /\
  ((String.length csvContent <= 10000)%nat ->
   GeminiService.analyzeData_contents csvContent query
   = (("Context: Here is a CSV data snippet:" ++ nl)
      ++ csvContent ++ (nl ++ nl ++ "Query: " ++ query))%string) /\
  (forall head rest,
     csvContent = (head ++ rest)%string ->
     String.length head = 10000%nat ->
     GeminiService.analyzeData_contents csvContent query
     = (("Context: Here is a CSV data snippet:" ++ nl)
        ++ head ++ (nl ++ nl ++ "Query: " ++ query))%string /\
     GeminiService.analyzeData_contents csvContent query
     = GeminiService.analyzeData_contents head query).
Proof.
  assert (P : forall csv,
             GeminiService.analyzeData_contents csv query
             = (("Context: Here is a CSV data snippet:" ++ nl)
                ++ slice0 10000 csv ++ (nl ++ nl ++ "Query: " ++ query))%string).
  { intros csv. unfold GeminiService.analyzeData_contents.
    now rewrite <- !append_assoc. }
  split; [apply slice0_prefix |]. split; [apply slice0_length |].
  split; [apply slice0_short |]. split; [| split; [| split; [| split]]].
  - unfold GeminiService.analyzeData_contents.
    rewrite !length_append, slice0_length. cbn [String.length nl]. lia.
  - unfold GeminiService.analyzeData_contents.
    eexists. rewrite <- !append_assoc. reflexivity.
  - apply P.
  - intros L. rewrite P, slice0_short by exact L. reflexivity.
  - intros head rest -> L. rewrite !P, slice0_app by exact L.
    rewrite slice0_short by lia. split; reflexivity.
Qed.

Lemma first_inline_returned (ps : list Part) (url : string) :
  GeminiService.first_inline ps = Returned url <->
  exists before p b after,
    ps = before ++ p :: after /\
    Forall no_inline before /\
    inlineData p = Some b /\
    url = ("data:image/png;base64," ++ GeminiService.data_or_undefined b)%string.
Proof.
  induction ps as [| q r IH]; cbn.
  - split; [discriminate |].
    intros (before & p & b & after & E & _). now destruct before.
  - destruct (inlineData q) as [bq |] eqn:Q.
    + split.
      * intros E. injection E as <-. exists [], q, bq, r. repeat split; auto.
      * intros (before & p & b & after & E & F & I & ->).
        destruct before as [| x before].
        -- cbn in E. injection E as -> ->. rewrite Q in I. now injection I as ->.
        -- cbn in E. injection E as -> ->. inversion F as [| ? ? N _]; subst.
           unfold no_inline in N. congruence.
    + rewrite IH. split.
      * intros (before & p & b & after & -> & F & I & ->).
        exists (q :: before), p, b, after. repeat split; auto.
      * intros (before & p & b & after & E & F & I & ->).
        destruct before as [| x before].
        -- cbn in E. injection E as -> ->. congruence.
        -- cbn in E. injection E as -> ->. inversion F; subst.
           exists before, p, b, after. repeat split; auto.
Qed.

Lemma first_inline_failed (ps : list Part) :
  GeminiService.first_inline ps = ThrewError "Failed to generate image" <->
  Forall no_inline ps.
Proof.
  induction ps as [| q r IH]; cbn.
  - split; [constructor | reflexivity].
  - destruct (inlineData q) as [bq |] eqn:Q.
    + split; [discriminate |]. intros F. inversion F as [| ? ? N _]; subst.
      unfold no_inline in N. congruence.
    + rewrite IH. split; [now constructor | intros F; now inversion F].
Qed.

Lemma first_inline_no_TypeError (ps : list Part) :
  GeminiService.first_inline ps <> ThrewTypeError.
Proof.
  induction ps as [| q r IH]; cbn; [discriminate |].
  destruct (inlineData q); [discriminate | exact IH].
Qed.

(** X15.  [generateImage] throws a TypeError exactly when the response has
    no first candidate, or that has no content, or the content no parts.
    Otherwise it returns the data URL of the first part that has inline
    data, parts without inline data before it being skipped, and throws
    "Failed to generate image" exactly when no part has inline data. *)
Theorem generateImage_returns_first_inline_part
    (response : GeminiService.GenerateContentResponse) :
  (GeminiService.generateImage_result response = ThrewTypeError <->
   GeminiService.image_parts response = None) /\
  (forall ps,
      GeminiService.image_parts response = Some ps ->
      (forall url,
          GeminiService.generateImage_result response = Returned url <->
          exists before p b after,
            ps = before ++ p :: after /\
            Forall no_inline before /\
            inlineData p = Some b /\
            url = ("data:image/png;base64,"
                   ++ GeminiService.data_or_undefined b)%string) /\
      (GeminiService.generateImage_result response
       = ThrewError "Failed to generate image" <->
       Forall no_inline ps)).
Proof.
  unfold GeminiService.generateImage_result, GeminiService.image_parts.
  destruct (GeminiService.candidates response) as [[| c cs] |];
    try (split; [tauto | discriminate]).
  destruct (GeminiService.content c) as [ct |]; try (split; [tauto | discriminate]).
  destruct (parts ct) as [ps |]; try (split; [tauto | discriminate]).
  split.
  - split; [| discriminate]. intros E. now apply first_inline_no_TypeError in E.
  - intros ps' E. injection E as <-. split.
    + intros url. apply first_inline_returned.
    + apply first_inline_failed.
Qed.

Lemma split_on_nonempty (sep : ascii) (s : string) : split_on sep s <> [].
Proof.
  destruct s as [| c r]; cbn; [discriminate |].
  destruct (Ascii.eqb c sep); [discriminate |].
  destruct (split_on sep r); discriminate.
Qed.

Lemma split_on_absent (sep : ascii) (s : string) :
  occurs sep s = false -> split_on sep s = [s].
Proof.
  induction s as [| c r IH]; cbn; [reflexivity |].
  destruct (Ascii.eqb c sep); cbn; [discriminate |].
  intros O. now rewrite IH.
Qed.

Lemma split_on_first (sep : ascii) (a b : string) :
  occurs sep a = false ->
  split_on sep (a ++ String sep b) = a :: split_on sep b.
Proof.
  induction a as [| c r IH]; cbn.
  - intros _. now rewrite Ascii.eqb_refl.
  - destruct (Ascii.eqb c sep); cbn; [discriminate |].
    intros O. now rewrite IH.
Qed.

(** X16.  The image bytes taken from a start image by [split(',')[1]]:
    for a data URL whose header has no comma they are the payload up to its
    first comma, the whole payload when it has none (as a base64 payload has
    not); a start image without any comma gives [undefined], and an empty
    start image gives no image at all.  The type sent is image/png whatever
    the header says. *)
Theorem startImage_bytes_follow_first_comma (header payload : string) :
  occurs ","%char header = false ->
  after_comma (header ++ "," ++ payload)
  = Some (hd EmptyString (split_on ","%char payload)) /\
  (occurs ","%char payload = false ->
   after_comma (header ++ "," ++ payload) = Some payload /\
   GeminiService.startImage_payload (Some (header ++ "," ++ payload)%string)
   = Some {| GeminiService.imageBytes := Some payload;
             GeminiService.mimeType := "image/png" |}) /\
  after_comma header = None /\
  (header <> EmptyString ->
   GeminiService.startImage_payload (Some header)
   = Some {| GeminiService.imageBytes := None;
             GeminiService.mimeType := "image/png" |}) /\
  GeminiService.startImage_payload (Some EmptyString) = None /\
  GeminiService.startImage_payload None = None.
Proof.
  intros H.
  assert (E : split_on ","%char (header ++ "," ++ payload)
              = header :: split_on ","%char payload)
    by (apply (split_on_first ","%char header payload H)).
  unfold after_comma. rewrite E. cbn [nth_error].
  split.
  { pose proof (split_on_nonempty ","%char payload) as N.
    destruct (split_on ","%char payload); [contradiction | reflexivity]. }
  split.
  { intros P. rewrite (split_on_absent _ _ P). split; [reflexivity |].
    unfold GeminiService.startImage_payload, after_comma. rewrite E.
    rewrite (split_on_absent _ _ P). cbn [nth_error].
    destruct header; reflexivity. }
  split; [now rewrite (split_on_absent _ _ H) |].
  split; [| split; reflexivity].
  intros N. unfold GeminiService.startImage_payload, after_comma.
  rewrite (split_on_absent _ _ H). destruct header; [contradiction | reflexivity].
Qed.

Lemma startImage_bytes_follow_first_comma_witness :
  occurs ","%char "data:image/jpeg;base64" = false /\
  after_comma "data:image/jpeg;base64,QUJD" = Some "QUJD"%string /\
  after_comma "data:image/jpeg;base64,QU,JD" = Some "QU"%string /\
  GeminiService.startImage_payload (Some "data:image/jpeg;base64,QUJD"%string)
  = Some {| GeminiService.imageBytes := Some "QUJD"%string;
            GeminiService.mimeType := "image/png" |}.
Proof.
  assert (H : occurs ","%char "data:image/jpeg;base64" = false) by reflexivity.
  destruct (startImage_bytes_follow_first_comma "data:image/jpeg;base64" "QUJD" H)
    as (_ & P & _).
  destruct (startImage_bytes_follow_first_comma "data:image/jpeg;base64" "QU,JD" H)
    as (Q & _).
  destruct (P eq_refl) as (A & S).
  split; [exact H |]. split; [exact A |]. split; [exact Q | exact S].
Defined.

Lemma poll_result (first : GeminiService.Operation)
    (later : list GeminiService.Operation) (final : GeminiService.Operation) (n : nat) :
  GeminiService.poll first later = Some (final, n) ->
  truthy_bool (GeminiService.done final) = true /\
  nth_error (first :: later) n = Some final /\
  Forall waiting (firstn n (first :: later)).
Proof.
  revert first n. induction later as [| next rest IH]; intros first n; cbn.
  - destruct (truthy_bool (GeminiService.done first)) eqn:D; [| discriminate].
    intros E. injection E as <- <-. repeat split; [exact D | constructor].
  - destruct (truthy_bool (GeminiService.done first)) eqn:D.
    + intros E. injection E as <- <-. repeat split; [exact D | constructor].
    + destruct (GeminiService.poll next rest) as [[f k] |] eqn:P; [| discriminate].
      intros E. injection E as <- <-.
      destruct (IH next k P) as (A & B & C).
      split; [exact A |]. split; [exact B |].
      cbn [firstn]. constructor; [exact D | exact C].
Qed.

Lemma poll_none (first : GeminiService.Operation)
    (later : list GeminiService.Operation) :
  GeminiService.poll first later = None <-> Forall waiting (first :: later).
Proof.
  revert first. induction later as [| next rest IH]; intros first; cbn.
  - destruct (truthy_bool (GeminiService.done first)) eqn:D.
    + split; [discriminate |]. intros F. inversion F as [| ? ? W _]; subst.
      unfold waiting in W. congruence.
    + split; [| reflexivity]. intros _. repeat constructor. exact D.
  - destruct (truthy_bool (GeminiService.done first)) eqn:D.
    + split; [discriminate |]. intros F. inversion F as [| ? ? W _]; subst.
      unfold waiting in W. congruence.
    + specialize (IH next).
      destruct (GeminiService.poll next rest) as [[f k] |].
      * split; [discriminate |]. intros F. inversion F as [| ? ? _ F']; subst.
        apply IH in F'. discriminate F'.
      * split; [| reflexivity]. intros _. constructor; [exact D | now apply IH].
Qed.

(** X17.  The polling loop of [generateVideo] ends on the first operation
    that is done: it makes as many polls as there are operations not yet
    done before it, and goes on waiting exactly when none of the answers is
    done.  When it ends, the address fetched is the operation's download
    link followed by the key, and the error "no download URI returned" is
    thrown exactly when that link is missing or empty. *)
Theorem generateVideo_polls_until_done (apiKey : string)
    (first : GeminiService.Operation) (later : list GeminiService.Operation) :
  (forall final n,
      GeminiService.poll first later = Some (final, n) ->
      truthy_bool (GeminiService.done final) = true /\
      nth_error (first :: later) n = Some final /\
      Forall waiting (firstn n (first :: later))) /\
  (GeminiService.poll first later = None <-> Forall waiting (first :: later)) /\
  (GeminiService.generateVideo_fetch apiKey first later = None <->
   Forall waiting (first :: later)) /\
  (forall final n,
      GeminiService.poll first later = Some (final, n) ->
      (forall link, GeminiService.downloadLink final = Some link ->
                    link <> EmptyString ->
                    GeminiService.generateVideo_fetch apiKey first later
                    = Some (Returned (link ++ "&key=" ++ apiKey)%string)) /\
      (truthy_string (GeminiService.downloadLink final) = false ->
       GeminiService.generateVideo_fetch apiKey first later
       = Some (ThrewError "Video generation failed - no download URI returned."))).
Proof.
  split; [intros final n; apply poll_result |].
  split; [apply poll_none |].
  split.
  - rewrite <- poll_none. unfold GeminiService.generateVideo_fetch.
    destruct (GeminiService.poll first later) as [[f k] |]; split;
      try discriminate; reflexivity.
  - intros final n P. unfold GeminiService.generateVideo_fetch. rewrite P. split.
    + intros link L N. rewrite L. destruct link; [contradiction | reflexivity].
    + intros F. now rewrite F.
Qed.

(** * Properties of the application component *)

Lemma truthy_string_Some (s : string) :
  truthy_string (Some s) = true <-> s <> EmptyString.
Proof. destruct s; cbn; split; congruence. Qed.

Lemma or_string_truthy (a : option string) (d : string) :
  d <> EmptyString ->
  exists s, or_string a (Some d) = Some s /\ s <> EmptyString.
Proof.
  intros D. unfold or_string. destruct (truthy_string a) eqn:E.
  - destruct a as [s |]; [| discriminate]. exists s. split; [reflexivity |].
    now apply truthy_string_Some.
  - now exists d.
Qed.

(** The conversation after a run: [n] completed turns, then the user's
    message while a send is in progress. *)
Lemma conversation_shape (es : list App.Event) :
  exists n,
    map App.role (App.messages (App.run App.initial es))
    = App.turns n ++ (if App.isProcessing (App.run App.initial es)
                      then [App.user] else []) /\
    App.awaiting (App.run App.initial es)
    = (if App.isProcessing (App.run App.initial es) then 1 else 0)%nat /\
    List.length (App.calls (App.run App.initial es))
    = (n + App.awaiting (App.run App.initial es))%nat.
Proof.
  assert (G : forall st,
    (exists n,
       map App.role (App.messages st)
       = App.turns n ++ (if App.isProcessing st then [App.user] else []) /\
       App.awaiting st = (if App.isProcessing st then 1 else 0)%nat /\
       List.length (App.calls st) = (n + App.awaiting st)%nat) ->
    exists n,
      map App.role (App.messages (App.run st es))
      = App.turns n ++ (if App.isProcessing (App.run st es) then [App.user] else []) /\
      App.awaiting (App.run st es)
      = (if App.isProcessing (App.run st es) then 1 else 0)%nat /\
      List.length (App.calls (App.run st es))
      = (n + App.awaiting (App.run st es))%nat).
  { induction es as [| e es IH]; intros st I; [exact I |].
    cbn [App.run fold_left].
    change (fold_left App.step es (App.step st e)) with (App.run (App.step st e) es).
    apply IH. destruct I as (n & M & A & C).
    destruct e as [now | now outcome | s]; cbn [App.step].
    - unfold App.handleSendMessage.
      destruct (blank (App.inputValue st) || App.isProcessing st) eqn:B;
        [now exists n |].
      apply Bool.orb_false_iff in B. destruct B as (_ & P).
      rewrite P in *. exists n. cbn. rewrite map_app, M, A, length_app, C, A.
      cbn. rewrite app_nil_r. repeat split; lia.
    - unfold App.settle. destruct (App.awaiting st) as [| k] eqn:W;
        [exists n; rewrite W; repeat split; assumption |].
      destruct (App.isProcessing st); [| discriminate].
      injection A as ->. exists (S n). cbn. rewrite map_app, M, C.
      assert (R : App.role (App.reply now outcome) = App.assistant)
        by (destruct outcome; reflexivity).
      cbn. rewrite R. split; [| split; [reflexivity | lia]].
      rewrite app_nil_r. clear. induction n as [| n IH]; [reflexivity |].
      cbn. now rewrite IH.
    - exists n. cbn. auto. }
  apply G. exists 0%nat. repeat split.
Qed.

(** X18.  In every run of the component from its initial state the
    conversation alternates: it is a number of completed turns, a user
    message followed by an assistant message, and after them the user's
    message exactly while a send is in progress; at most one send is
    suspended, and one exactly while [isProcessing] is set; the request
    service has been called once for each user message. *)
Theorem conversation_alternates (es : list App.Event) :
  let st := App.run App.initial es in
  exists n,
    map App.role (App.messages st)
    = App.turns n ++ (if App.isProcessing st then [App.user] else []) /\
    App.awaiting st = (if App.isProcessing st then 1 else 0)%nat /\
    List.length (App.calls st)
    = List.length (filter (fun m => match App.role m with
                                    | App.user => true
                                    | App.assistant => false
                                    end) (App.messages st)).
Proof.
  cbv zeta. destruct (conversation_shape es) as (n & M & A & C).
  exists n. split; [exact M |]. split; [exact A |].
  rewrite C, A.
  assert (F : forall l : list App.ChatMessage,
            List.length (filter (fun m => match App.role m with
                                          | App.user => true
                                          | App.assistant => false
                                          end) l)
            = List.length (filter (fun r => match r with
                                            | App.user => true
                                            | App.assistant => false
                                            end) (map App.role l))).
  { induction l as [| m l IH]; [reflexivity |]. cbn.
    destruct (App.role m); cbn; now rewrite IH. }
  rewrite F, M, filter_app, length_app.
  assert (Tn : List.length (filter (fun r => match r with
                                             | App.user => true
                                             | App.assistant => false
                                             end) (App.turns n)) = n).
  { clear. induction n as [| n IH]; [reflexivity |]. cbn. now rewrite IH. }
  rewrite Tn. destruct (App.isProcessing (App.run App.initial es)); reflexivity.
Qed.

Lemma maps_never_set (es : list App.Event) :
  App.useMaps (App.run App.initial es) = false /\
  App.location (App.run App.initial es) = None /\
  Forall without_maps (App.calls (App.run App.initial es)).
Proof.
  assert (G : forall st,
    App.useMaps st = false /\ App.location st = None /\
    Forall without_maps (App.calls st) ->
    App.useMaps (App.run st es) = false /\ App.location (App.run st es) = None /\
    Forall without_maps (App.calls (App.run st es))).
  { induction es as [| e es IH]; intros st I; [exact I |].
    cbn [App.run fold_left].
    change (fold_left App.step es (App.step st e)) with (App.run (App.step st e) es).
    apply IH. destruct I as (U & L & F).
    destruct e as [now | now outcome | s]; cbn [App.step].
    - unfold App.handleSendMessage.
      destruct (blank (App.inputValue st) || App.isProcessing st); [auto |].
      cbn. repeat split; auto. apply Forall_app. split; [exact F |].
      constructor; [| constructor]. unfold App.send_call.
      destruct (App.mode st), (App.analysisFile st); cbn; auto; now rewrite U.
    - unfold App.settle. destruct (App.awaiting st); cbn; auto.
    - cbn. rewrite U. repeat split; auto. destruct s; auto. }
  apply G. repeat split. constructor.
Qed.

(** X19.  The component never asks for the maps tool: no setter call sets
    [useMaps], so in every run it stays false and no position is stored,
    and every chat request is sent without a tool configuration and with no
    tool but search. *)
Theorem app_never_asks_for_maps (es : list App.Event) :
  App.useMaps (App.run App.initial es) = false /\
  App.location (App.run App.initial es) = None /\
  Forall (fun r =>
            GeminiService.toolConfig (GeminiService.config r) = None /\
            (GeminiService.tools (GeminiService.config r) = None \/
             GeminiService.tools (GeminiService.config r)
             = Some [GeminiService.googleSearch]))
         (App.chat_requests (App.calls (App.run App.initial es))).
Proof.
  destruct (maps_never_set es) as (U & L & F).
  split; [exact U |]. split; [exact L |].
  induction F as [| c cs W _ IH]; [constructor |].
  unfold App.chat_requests. cbn [flat_map].
  destruct c as [p o | csv q]; [| exact IH].
  cbn [app]. constructor; [| exact IH].
  unfold without_maps in W. unfold GeminiService.chat, GeminiService.chat_tools.
  cbn. rewrite W. split; [reflexivity |].
  destruct (truthy_bool (GeminiService.useSearch o)); [right | left]; reflexivity.
Qed.

Lemma join_nonempty (sep x : string) (r : list string) :
  x <> EmptyString -> join sep (x :: r) <> EmptyString.
Proof.
  intros N. cbn. destruct r; [exact N |].
  destruct x; [contradiction | discriminate].
Qed.

(** X20.  A send in RAG mode calls [chat] with the researcher role and
    the context assembled from the ready files: with no ready file the
    system instruction is the researcher's instruction alone, otherwise it
    is followed by the context section holding each ready file's name and
    content; no tool configuration is sent, and the search tool exactly
    when search grounding is on. *)
Theorem rag_send_uses_researcher_and_context (now : Z) (st : App.State) :
  App.mode st = App.RAG ->
  blank (App.inputValue st) = false ->
  App.isProcessing st = false ->
  exists o,
    App.calls (App.handleSendMessage now st)
    = App.calls st ++ [App.CallChat (App.inputValue st) o] /\
    let c := GeminiService.config (GeminiService.chat (App.inputValue st) o) in
    (filter App.is_ready (App.ragFiles st) = [] ->
     GeminiService.systemInstruction c
     = GeminiService.getRoleInstruction GeminiService.researcher) /\
    (filter App.is_ready (App.ragFiles st) <> [] ->
     GeminiService.systemInstruction c
     = (GeminiService.getRoleInstruction GeminiService.researcher
        ++ nl ++ nl ++ "USE THIS CONTEXT TO ANSWER: "
        ++ App.rag_context (App.ragFiles st))%string) /\
    GeminiService.toolConfig c = None /\
    GeminiService.tools c
    = (if App.useSearch st then Some [GeminiService.googleSearch] else None).
Proof.
  intros M B P. unfold App.handleSendMessage. rewrite B, P. cbn [orb App.calls].
  unfold App.send_call. rewrite M.
  eexists. split; [reflexivity |]. cbv zeta.
  unfold GeminiService.chat, GeminiService.chat_instruction, GeminiService.chat_tools.
  cbn -[GeminiService.getRoleInstruction truthy_string App.rag_context].
  split; [| split; [| split]].
  - intros E. unfold App.rag_context. rewrite E. cbn [map join truthy_string].
    apply append_nil_r.
  - intros N. unfold App.rag_context.
    destruct (filter App.is_ready (App.ragFiles st)) as [| f r]; [contradiction |].
    cbn [map].
    assert (T : truthy_string (Some (join App.rag_separator
                                       (App.file_block f :: map App.file_block r))) = true).
    { apply truthy_string_Some. apply join_nonempty. discriminate. }
    rewrite T. reflexivity.
  - reflexivity.
  - destruct (App.useSearch st); reflexivity.
Qed.

(** X21.  The settlement of a send appends exactly one assistant message
    and clears [isProcessing], whether the call returned or threw; the
    message's content is never empty: it is the response's text when that is
    non-empty, a fixed apology when it is missing or empty, and a fixed
    message of type error when the call threw.  What was typed in the
    meantime is kept. *)
Theorem settlement_appends_one_reply
    (now : Z) (outcome : option App.Response) (st : App.State) :
  App.awaiting st <> 0%nat ->
  let st' := App.settle now outcome st in
  App.messages st' = App.messages st ++ [App.reply now outcome] /\
  App.role (App.reply now outcome) = App.assistant /\
  App.content (App.reply now outcome) <> EmptyString /\
  App.isProcessing st' = false /\
  App.inputValue st' = App.inputValue st /\
  App.awaiting st' = pred (App.awaiting st) /\
  (outcome = None -> App.type (App.reply now outcome) = App.error) /\
  (forall r t, outcome = Some r -> App.response_text r = Some t -> t <> EmptyString ->
               App.content (App.reply now outcome) = t) /\
  (forall r, outcome = Some r -> truthy_string (App.response_text r) = false ->
             App.content (App.reply now outcome)
             = "Sorry, I encountered an issue."%string).
Proof.
  intros W st'. subst st'. unfold App.settle.
  destruct (App.awaiting st) as [| k]; [contradiction |]. cbn.
  split; [reflexivity |].
  split; [destruct outcome; reflexivity |].
  split.
  { destruct outcome as [r |]; cbn; [| discriminate].
    destruct (or_string_truthy (App.response_text r) "Sorry, I encountered an issue."
                ltac:(discriminate)) as (s & E & N).
    now rewrite E. }
  repeat split.
  - now intros ->.
  - intros r t -> E N. cbn. unfold or_string. rewrite E.
    destruct t; [contradiction | reflexivity].
  - intros r -> F. cbn. unfold or_string. now rewrite F.
Qed.

(** X22.  A grounding source is shown as a link exactly when its web or
    its maps entry has a non-empty address; the link's address and label are
    then never empty: the address is the web one when that is non-empty and
    the maps one otherwise, the label is the first non-empty of the web
    title, the maps title and "Reference". *)
Theorem source_link_is_never_empty (source : App.GroundingChunk) :
  let web_uri := match App.web source with Some p => App.uri p | None => None end in
  let maps_uri := match App.maps source with Some p => App.uri p | None => None end in
  let web_title := match App.web source with Some p => App.title p | None => None end in
  let maps_title := match App.maps source with Some p => App.title p | None => None end in
  (App.source_link source = None <->
   truthy_string web_uri = false /\ truthy_string maps_uri = false) /\
  (forall u l, App.source_link source = Some (u, l) ->
     u <> EmptyString /\ l <> EmptyString /\
     (truthy_string web_uri = true -> web_uri = Some u) /\
     (truthy_string web_uri = false -> maps_uri = Some u) /\
     (truthy_string web_title = true -> web_title = Some l) /\
     (truthy_string web_title = false -> truthy_string maps_title = true ->
      maps_title = Some l) /\
     (truthy_string web_title = false -> truthy_string maps_title = false ->
      l = "Reference"%string)).
Proof.
  cbv zeta. unfold App.source_link.
  set (wu := match App.web source with Some p => App.uri p | None => None end).
  set (mu := match App.maps source with Some p => App.uri p | None => None end).
  set (wt := match App.web source with Some p => App.title p | None => None end).
  set (mt := match App.maps source with Some p => App.title p | None => None end).
  clearbody wu mu wt mt.
  destruct wu as [[| c s] |], mu as [[| c' s'] |];
    destruct wt as [[| d t] |], mt as [[| d' t'] |]; cbn;
    (split; [split; [try discriminate; auto | try (intros (A & B); discriminate); auto] |]);
    intros u l E; try discriminate; injection E as <- <-;
    repeat split; try discriminate; intros; try discriminate; reflexivity.
Qed.

Lemma status_index_mod (n : nat) : Generator.status_index n = (n mod 6)%nat.
Proof.
  induction n as [| n IH]; [reflexivity |].
  cbn [Generator.status_index]. unfold Generator.tick. rewrite IH.
  change (List.length Generator.status_messages) with 6%nat.
  rewrite Nat.Div0.add_mod_idemp_l. f_equal. lia.
Qed.

(** X23.  The status shown while generating cycles through the six
    messages: after [n] runs of the interval callback it is the message at
    index [n mod 6], so it is never [undefined], and it repeats every six
    runs. *)
Theorem status_cycles_through_messages (n : nat) :
  Generator.status_index n = (n mod 6)%nat /\
  (exists s, Generator.status_after n = Some s /\ In s Generator.status_messages) /\
  Generator.status_after (n + 6) = Generator.status_after n.
Proof.
  split; [apply status_index_mod |]. split.
  - unfold Generator.status_after. rewrite status_index_mod.
    assert (B : (n mod 6 < List.length Generator.status_messages)%nat)
      by (apply Nat.mod_upper_bound; discriminate).
    destruct (nth_error Generator.status_messages (n mod 6)) as [s |] eqn:E.
    + exists s. split; [reflexivity |]. now apply nth_error_In in E.
    + apply nth_error_None in E. lia.
  - unfold Generator.status_after. rewrite !status_index_mod.
    f_equal. replace (n + 6)%nat with (n + 1 * 6)%nat by lia.
    now rewrite Nat.Div0.mod_add.
Qed.

Section CaptureSendFacts.

Variable encode : list Z -> string.

Lemma capture_run_app (st : CaptureSend.State) (es : list CaptureSend.Event)
    (e : CaptureSend.Event) :
  CaptureSend.run encode st (es ++ [e])
  = CaptureSend.step encode (CaptureSend.run encode st es) e.
Proof. unfold CaptureSend.run. now rewrite fold_left_app. Qed.

(** X24.  Every captured block gives one frame, and the frames are handed
    to [sendRealtimeInput] in capture order: none while the session promise
    is pending (they wait as its reactions), all of them, each once, once it
    is fulfilled, and none at all when it is rejected. *)
Theorem captured_blocks_are_sent_in_order (es : list CaptureSend.Event) :
  let st := CaptureSend.run encode CaptureSend.initial es in
  match CaptureSend.promise st with
  | CaptureSend.Pending =>
      CaptureSend.sent st = [] /\
      CaptureSend.reactions st = CaptureSend.captured encode es
  | CaptureSend.Fulfilled =>
      CaptureSend.sent st = CaptureSend.captured encode es /\
      CaptureSend.reactions st = []
  | CaptureSend.Rejected =>
      CaptureSend.sent st = [] /\ CaptureSend.reactions st = []
  end.
Proof.
  cbv zeta. induction es as [| e es IH] using rev_ind; [split; reflexivity |].
  rewrite capture_run_app. unfold CaptureSend.captured in *.
  rewrite flat_map_app. cbn [flat_map]. rewrite app_nil_r.
  destruct (CaptureSend.promise (CaptureSend.run encode CaptureSend.initial es)) eqn:P;
    destruct IH as (S & R);
    destruct e as [inputData | connected]; cbn [CaptureSend.step];
      unfold CaptureSend.onaudioprocess, CaptureSend.settle; rewrite P;
      try destruct connected; cbn; rewrite ?P, ?S, ?R, ?app_nil_r; auto.
Qed.

End CaptureSendFacts.

(** ** The properties of the component on concrete inputs *)

Lemma rag_send_uses_researcher_and_context_witness :
  (App.mode Scene.asking = App.RAG /\
   blank (App.inputValue Scene.asking) = false /\
   App.isProcessing Scene.asking = false) /\
  App.rag_context (App.ragFiles Scene.asking)
  = ("File: notes.txt" ++ nl ++ "Content: alpha")%string /\
  exists o,
    App.calls (App.handleSendMessage 1000 Scene.asking) = [App.CallChat "why?" o] /\
    GeminiService.systemInstruction
      (GeminiService.config (GeminiService.chat "why?" o))
    = (GeminiService.getRoleInstruction GeminiService.researcher
       ++ nl ++ nl ++ "USE THIS CONTEXT TO ANSWER: "
       ++ "File: notes.txt" ++ nl ++ "Content: alpha")%string.
Proof.
  assert (M : App.mode Scene.asking = App.RAG) by reflexivity.
  assert (B : blank (App.inputValue Scene.asking) = false) by reflexivity.
  assert (P : App.isProcessing Scene.asking = false) by reflexivity.
  destruct (rag_send_uses_researcher_and_context 1000 Scene.asking M B P)
    as (o & C & _ & I & _).
  split; [repeat split; assumption |]. split; [reflexivity |].
  exists o. split; [exact C |].
  apply I. discriminate.
Defined.

Lemma settlement_appends_one_reply_witness :
  App.awaiting (App.handleSendMessage 1000 Scene.asking) <> 0%nat /\
  map App.content
    (App.messages (App.settle 2000 (Some {| App.response_text := Some EmptyString;
                                            App.groundingChunks := None |})
                     (App.handleSendMessage 1000 Scene.asking)))
  = ["why?"; "Sorry, I encountered an issue."]%string /\
  App.isProcessing (App.settle 2000 None (App.handleSendMessage 1000 Scene.asking))
  = false.
Proof.
  assert (W : App.awaiting (App.handleSendMessage 1000 Scene.asking) <> 0%nat)
    by discriminate.
  destruct (settlement_appends_one_reply 2000
              (Some {| App.response_text := Some EmptyString;
                       App.groundingChunks := None |})
              (App.handleSendMessage 1000 Scene.asking) W) as (E & _).
  destruct (settlement_appends_one_reply 2000 None
              (App.handleSendMessage 1000 Scene.asking) W) as (_ & _ & _ & Q & _).
  split; [exact W |]. split; [rewrite E; reflexivity | exact Q].
Defined.

Lemma source_link_is_never_empty_witness :
  (App.source_link Scene.mixed_source
   = Some ("https://maps.example/x", "Web title")%string /\
   "https://maps.example/x"%string <> EmptyString /\
   match App.web Scene.mixed_source with Some p => App.title p | None => None end
   = Some "Web title"%string) /\
  (App.source_link Scene.untitled_source
   = Some ("https://maps.example/y", "Reference")%string /\
   "Reference"%string = "Reference"%string).
Proof.
  assert (E : App.source_link Scene.mixed_source
              = Some ("https://maps.example/x", "Web title")%string) by reflexivity.
  assert (F : App.source_link Scene.untitled_source
              = Some ("https://maps.example/y", "Reference")%string) by reflexivity.
  destruct (source_link_is_never_empty Scene.mixed_source) as (_ & H).
  destruct (H _ _ E) as (U & _ & _ & _ & W & _).
  destruct (source_link_is_never_empty Scene.untitled_source) as (_ & G).
  destruct (G _ _ F) as (_ & _ & _ & _ & _ & _ & R).
  split; [split; [exact E | split; [exact U | exact (W eq_refl)]] |].
  split; [exact F | exact (R eq_refl eq_refl)].
Defined.

Section QuietMessages.

Context {T : Type} {time_ops : TimeOps T}.

Lemma appendTranscripts_nil (st : State T) : appendTranscripts [] st = st.
Proof. destruct st. unfold appendTranscripts. cbn. now rewrite app_nil_r. Qed.

(** X25.  Two kinds of message leave the hook's state exactly as it was.
    A message whose model turn has no [parts] makes the handler throw at
    line 63, before anything is done: its interruption flag and its
    transcriptions are lost.  A message that carries no audio payload, no
    interruption flag and no transcription (an absent [serverContent], an
    empty [parts] list, an empty payload) is handled to the end without
    effect. *)
Theorem unreadable_or_empty_message_changes_nothing
    (st : State T) (m : LiveServerMessage) (now : T)
    (decoded : option (AudioBuffer T)) :
  (is_normal (base64Audio m) = false ->
   deliver st m now decoded = st /\
   is_normal (onmessage m now decoded st) = false) /\
  (is_normal (base64Audio m) = true ->
   is_chunk m = false ->
   is_interrupted m = false ->
   output_entry m = [] ->
   input_entry m = [] ->
   deliver st m now decoded = st /\
   is_normal (onmessage m now decoded st) = true) /\
  (serverContent m = None -> deliver st m now decoded = st).
Proof.
  assert (Q : is_normal (base64Audio m) = true ->
              is_chunk m = false ->
              is_interrupted m = false ->
              output_entry m = [] ->
              input_entry m = [] ->
              deliver st m now decoded = st /\
              is_normal (onmessage m now decoded st) = true).
  { intros N K I O In. rewrite deliver_atomic. unfold onmessage, is_chunk in *.
    destruct (base64Audio m) as [b64 | b64]; [| discriminate].
    unfold audio_branch. rewrite K. cbn [completed is_normal].
    unfold onmessage_tail, handle_interruption, handle_transcripts.
    rewrite I, O, In, !appendTranscripts_nil. split; reflexivity. }
  split; [| split; [exact Q |]].
  - intros N. rewrite deliver_atomic. unfold onmessage.
    destruct (base64Audio m) as [b64 | b64]; [discriminate |]. split; reflexivity.
  - intros E. apply Q; unfold is_chunk, base64Audio, is_interrupted, output_entry,
      input_entry; rewrite E; reflexivity.
Qed.

End QuietMessages.

Lemma unreadable_or_empty_message_changes_nothing_witness :
  is_normal (base64Audio malformed_turn_message) = false /\
  is_interrupted malformed_turn_message = true /\
  deliver Run.played malformed_turn_message 100 None = Run.played /\
  sourcesRef Run.played = [4%nat].
Proof.
  assert (N : is_normal (base64Audio malformed_turn_message) = false) by reflexivity.
  destruct (unreadable_or_empty_message_changes_nothing Run.played
              malformed_turn_message 100 None) as (H & _).
  destruct (H N) as (E & _).
  split; [exact N |]. split; [reflexivity |]. split; [exact E | reflexivity].
Defined.
